(** * Hoyo_Notifications: snapshot comparison and periodic reports

    A shallow embedding of the comparison and scheduling code of
    [hoyo-slack-docker-2.0/app.py]:

    - [_load_character_batch], the comparison loops of
      [maybe_post_character_diff] and [post_period_summary], the totals
      line and the report sections;
    - the bookkeeping of [post_period_summary] over the two tables
      [character_stats_snapshots] and [character_summary_runs];
    - [_format_timer] and [_parse_recovery_seconds].

    Python [int] is [Z], [str] is [string] (the UTF-8 bytes of the text,
    whose byte order is the code point order used by [sorted]), [None] is
    the [None] of an [option], a [dict] keyed by character name is a
    [gmap string _], a [set] of names a [gset string].

    A timestamp TEXT of the tables is represented by the second it
    denotes, which is exact for the years 1000 to 9999: statements about
    a window of snapshots take its two bounds in those years.  Elapsed
    times are compared exactly; the float quotient of the source decides
    the same for a [days_back] from -198840 to 198842, and statements
    that rest on a suppressed evaluation carry that bound.  The SQLite connection
    itself does not fail; an INSERT can, on a NOT NULL column or on an
    integer outside 64 bits. *)

From Stdlib Require Import ZArith Ascii.
From Stdlib Require Floats.SpecFloat.
From stdpp Require Import gmap strings list fin_maps pretty sorting.

(* Strings are appended with [+:+]; [++] is kept for lists. *)
#[local] Disable Notation "_ ++ _" : string_scope.
Local Open Scope string_scope.
Local Open Scope Z_scope.

(** ** Character batches *)

(** The value stored under a character name by [_load_character_batch]. *)
Record CharacterRecord := {
  level : Z;
  friendship : Z;
  constellation : Z;
  weapon_name : string;
  weapon_level : Z;
  weapon_refinement : Z
}.

(** A row of [character_stats_snapshots], restricted to the columns the
    comparison code selects.  [taken_at_utc] is a TEXT written with
    [strftime("%Y-%m-%d %H:%M:%S")]; it is represented by the second it
    denotes (seconds since 1970-01-01 00:00:00 UTC), and for four-digit
    years the order of the texts is the order of the seconds.  The integer
    and text columns are nullable. *)
Record snapshot_row := {
  taken_at_utc : Z;
  account_name : string;
  character_name : string;
  col_level : option Z;
  col_friendship : option Z;
  col_constellation : option Z;
  col_weapon_name : option string;
  col_weapon_level : option Z;
  col_weapon_refinement : option Z
}.

(** [v or 0] on a nullable integer column. *)
Definition or_zero (v : option Z) : Z :=
  match v with
  | Some z => if decide (z = 0) then 0 else z
  | None => 0
  end.

(** [v or ""] on a nullable text column. *)
Definition or_empty (v : option string) : string :=
  match v with
  | Some s => if decide (s = "") then "" else s
  | None => ""
  end.

(** [x or 0] on an integer already defaulted by the loader. *)
Definition or0 (z : Z) : Z := if decide (z = 0) then 0 else z.

(** [s or 'No weapon']. *)
Definition or_no_weapon (s : string) : string :=
  if decide (s = "") then "No weapon" else s.

Definition batch_of_row (r : snapshot_row) : CharacterRecord :=
  {| level := or_zero (col_level r);
     friendship := or_zero (col_friendship r);
     constellation := or_zero (col_constellation r);
     weapon_name := or_empty (col_weapon_name r);
     weapon_level := or_zero (col_weapon_level r);
     weapon_refinement := or_zero (col_weapon_refinement r) |}.

(** [SELECT ... WHERE account_name = ? AND taken_at_utc = ?]. *)
Definition select_batch_rows (table : list snapshot_row)
    (account : string) (taken_at : Z) : list snapshot_row :=
  filter (λ r, account_name r = account ∧ taken_at_utc r = taken_at) table.

(** [_load_character_batch]: [batch[name] = {...}] for each selected row,
    a later row replacing an earlier one of the same name. *)
Definition _load_character_batch (table : list snapshot_row)
    (account : string) (taken_at : Z) : gmap string CharacterRecord :=
  foldl (λ batch r, <[character_name r := batch_of_row r]> batch) ∅
        (select_batch_rows table account taken_at).

(** ** The comparison loop *)

(** A line appended to one of the seven lists, kept together with the name
    of the character whose iteration appended it.  The list the source
    holds is the list of second components, see [lines_of]. *)
Definition entry : Type := string * string.

Definition lines_of (entries : list entry) : list string := entries.*2.

Record categories := {
  new_chars : list entry;
  level_ups : list entry;
  friendship_ups : list entry;
  constellation_changes : list entry;
  weapon_changes : list entry;
  weapon_level_changes : list entry;
  weapon_refinement_changes : list entry
}.

Definition no_categories : categories :=
  {| new_chars := []; level_ups := []; friendship_ups := [];
     constellation_changes := []; weapon_changes := [];
     weapon_level_changes := []; weapon_refinement_changes := [] |}.

Definition append_new_char (e : entry) (c : categories) : categories :=
  {| new_chars := new_chars c ++ [e]; level_ups := level_ups c;
     friendship_ups := friendship_ups c;
     constellation_changes := constellation_changes c;
     weapon_changes := weapon_changes c;
     weapon_level_changes := weapon_level_changes c;
     weapon_refinement_changes := weapon_refinement_changes c |}.

Definition append_level_up (e : entry) (c : categories) : categories :=
  {| new_chars := new_chars c; level_ups := level_ups c ++ [e];
     friendship_ups := friendship_ups c;
     constellation_changes := constellation_changes c;
     weapon_changes := weapon_changes c;
     weapon_level_changes := weapon_level_changes c;
     weapon_refinement_changes := weapon_refinement_changes c |}.

Definition append_friendship_up (e : entry) (c : categories) : categories :=
  {| new_chars := new_chars c; level_ups := level_ups c;
     friendship_ups := friendship_ups c ++ [e];
     constellation_changes := constellation_changes c;
     weapon_changes := weapon_changes c;
     weapon_level_changes := weapon_level_changes c;
     weapon_refinement_changes := weapon_refinement_changes c |}.

Definition append_constellation_change (e : entry) (c : categories) : categories :=
  {| new_chars := new_chars c; level_ups := level_ups c;
     friendship_ups := friendship_ups c;
     constellation_changes := constellation_changes c ++ [e];
     weapon_changes := weapon_changes c;
     weapon_level_changes := weapon_level_changes c;
     weapon_refinement_changes := weapon_refinement_changes c |}.

Definition append_weapon_change (e : entry) (c : categories) : categories :=
  {| new_chars := new_chars c; level_ups := level_ups c;
     friendship_ups := friendship_ups c;
     constellation_changes := constellation_changes c;
     weapon_changes := weapon_changes c ++ [e];
     weapon_level_changes := weapon_level_changes c;
     weapon_refinement_changes := weapon_refinement_changes c |}.

Definition append_weapon_level_change (e : entry) (c : categories) : categories :=
  {| new_chars := new_chars c; level_ups := level_ups c;
     friendship_ups := friendship_ups c;
     constellation_changes := constellation_changes c;
     weapon_changes := weapon_changes c;
     weapon_level_changes := weapon_level_changes c ++ [e];
     weapon_refinement_changes := weapon_refinement_changes c |}.

Definition append_weapon_refinement_change (e : entry) (c : categories) : categories :=
  {| new_chars := new_chars c; level_ups := level_ups c;
     friendship_ups := friendship_ups c;
     constellation_changes := constellation_changes c;
     weapon_changes := weapon_changes c;
     weapon_level_changes := weapon_level_changes c;
     weapon_refinement_changes := weapon_refinement_changes c ++ [e] |}.

(** The f-strings of the loop. *)
Definition new_char_line (name : string) (new : CharacterRecord) : string :=
  "• " +:+ name +:+ ": Lv" +:+ pretty (level new)
  +:+ " C" +:+ pretty (constellation new)
  +:+ " F" +:+ pretty (friendship new) +:+ " — "
  +:+ or_no_weapon (weapon_name new)
  +:+ " (Lv" +:+ pretty (weapon_level new)
  +:+ " R" +:+ pretty (weapon_refinement new) +:+ ")".

Definition level_up_line (name : string) (old new : CharacterRecord) : string :=
  "• " +:+ name +:+ ": Lv" +:+ pretty (level old)
  +:+ " → Lv" +:+ pretty (level new).

Definition friendship_up_line (name : string) (old new : CharacterRecord) : string :=
  "• " +:+ name +:+ ": F" +:+ pretty (friendship old)
  +:+ " → F" +:+ pretty (friendship new).

Definition constellation_change_line (name : string) (old new : CharacterRecord) : string :=
  "• " +:+ name +:+ ": C" +:+ pretty (constellation old)
  +:+ " → C" +:+ pretty (constellation new).

Definition weapon_change_line (name old_w new_w : string) (new : CharacterRecord) : string :=
  "• " +:+ name +:+ ": " +:+ or_no_weapon old_w +:+ " → "
  +:+ or_no_weapon new_w +:+ " "
  +:+ "(Lv" +:+ pretty (weapon_level new)
  +:+ " R" +:+ pretty (weapon_refinement new) +:+ ")".

Definition weapon_level_line (name new_w : string) (old new : CharacterRecord) : string :=
  "• " +:+ name +:+ " (" +:+ or_no_weapon new_w +:+ "): "
  +:+ "Lv" +:+ pretty (weapon_level old)
  +:+ " → Lv" +:+ pretty (weapon_level new).

Definition weapon_refinement_line (name new_w : string) (old new : CharacterRecord) : string :=
  "• " +:+ name +:+ " (" +:+ or_no_weapon new_w +:+ "): "
  +:+ "R" +:+ pretty (weapon_refinement old)
  +:+ " → R" +:+ pretty (weapon_refinement new).

(** The field comparisons made when the character is in both batches
    (the same statements in both functions). *)
Definition compare_fields (name : string) (old new : CharacterRecord)
    (acc : categories) : categories :=
  let acc :=
    if decide (or0 (level old) < level new)
    then append_level_up (name, level_up_line name old new) acc else acc in
  let acc :=
    if decide (or0 (friendship old) < friendship new)
    then append_friendship_up (name, friendship_up_line name old new) acc
    else acc in
  let acc :=
    if decide (constellation new ≠ or0 (constellation old))
    then append_constellation_change
           (name, constellation_change_line name old new) acc
    else acc in
  let old_w := or_empty (Some (weapon_name old)) in
  let new_w := or_empty (Some (weapon_name new)) in
  if decide (new_w ≠ old_w)
  then append_weapon_change (name, weapon_change_line name old_w new_w new) acc
  else
    let acc :=
      if decide (or0 (weapon_level old) < weapon_level new)
      then append_weapon_level_change
             (name, weapon_level_line name new_w old new) acc
      else acc in
    if decide (weapon_refinement new ≠ or0 (weapon_refinement old))
    then append_weapon_refinement_change
           (name, weapon_refinement_line name new_w old new) acc
    else acc.

(** One iteration of the loop of [maybe_post_character_diff]. *)
Definition latest_step (prev_batch curr_batch : gmap string CharacterRecord)
    (acc : categories) (name : string) : categories :=
  match prev_batch !! name, curr_batch !! name with
  | None, Some new => append_new_char (name, new_char_line name new) acc
  | _, None => acc
  | Some old, Some new => compare_fields name old new acc
  end.

(** One iteration of the loop of [post_period_summary]. *)
Definition period_step (existed_before : gset string)
    (prev_batch curr_batch : gmap string CharacterRecord)
    (acc : categories) (name : string) : categories :=
  match curr_batch !! name with
  | None => acc
  | Some new =>
      match prev_batch !! name with
      | None =>
          if decide (name ∉ existed_before)
          then append_new_char (name, new_char_line name new) acc
          else acc
      | Some old => compare_fields name old new acc
      end
  end.

(** The order of Python strings. *)
Definition str_le (a b : string) : Prop := String.leb a b = true.

#[global] Instance str_le_dec a b : Decision (str_le a b).
Proof. unfold str_le. apply _. Defined.

(** [sorted(set(prev_batch.keys()) | set(curr_batch.keys()))]. *)
Definition all_names (prev_batch curr_batch : gmap string CharacterRecord)
    : list string :=
  merge_sort str_le (elements (dom prev_batch ∪ dom curr_batch)).

Definition latest_categories (prev_batch curr_batch : gmap string CharacterRecord)
    : categories :=
  foldl (latest_step prev_batch curr_batch) no_categories
        (all_names prev_batch curr_batch).

Definition period_categories (existed_before : gset string)
    (prev_batch curr_batch : gmap string CharacterRecord) : categories :=
  foldl (period_step existed_before prev_batch curr_batch) no_categories
        (all_names prev_batch curr_batch).

(** The totals line (the same statements in both functions). *)
Definition total_line_of (prev_batch curr_batch : gmap string CharacterRecord)
    : option string :=
  let prev_total := Z.of_nat (size prev_batch) in
  let curr_total := Z.of_nat (size curr_batch) in
  if decide (prev_total ≠ curr_total) then
    let delta := curr_total - prev_total in
    let sign := if decide (0 < delta) then "+" else "" in
    Some ("• Characters: " +:+ pretty prev_total +:+ " → "
          +:+ pretty curr_total +:+ " (" +:+ sign +:+ pretty delta +:+ ")")
  else None.

(** The seven lists and the totals line at the end of the comparison. *)
Record ChangeSet := {
  cats : categories;
  total_line : option string
}.

Definition latest_changes (prev_batch curr_batch : gmap string CharacterRecord)
    : ChangeSet :=
  {| cats := latest_categories prev_batch curr_batch;
     total_line := total_line_of prev_batch curr_batch |}.

Definition period_changes (existed_before : gset string)
    (prev_batch curr_batch : gmap string CharacterRecord) : ChangeSet :=
  {| cats := period_categories existed_before prev_batch curr_batch;
     total_line := total_line_of prev_batch curr_batch |}.

(** [not xs] on a list, [not total_line] on the optional line. *)
Definition is_nil {A} (l : list A) : bool :=
  match l with [] => true | _ => false end.

Definition no_line (o : option string) : bool :=
  match o with
  | None => true
  | Some s => bool_decide (s = "")
  end.

(** The condition under which both functions return without a report. *)
Definition nothing_to_report (cs : ChangeSet) : bool :=
  is_nil (new_chars (cats cs))
  && is_nil (level_ups (cats cs))
  && is_nil (friendship_ups (cats cs))
  && is_nil (constellation_changes (cats cs))
  && is_nil (weapon_changes (cats cs))
  && is_nil (weapon_level_changes (cats cs))
  && is_nil (weapon_refinement_changes (cats cs))
  && no_line (total_line cs).

(** ** Report lines *)

(** The fields of [Account] the reports read. *)
Record Account := {
  name : string;
  slack_mention : option string
}.

(** [f"{account.slack_mention} " if getattr(account, "slack_mention", None)
    else ""]. *)
Definition mention_prefix (account : Account) : string :=
  match slack_mention account with
  | Some m => if decide (m = "") then "" else m +:+ " "
  | None => ""
  end.

(** [if entries: lines.append(title with count); lines.extend(entries);
    lines.append("")]. *)
Definition add_section (title : string) (entries : list entry)
    (lines : list string) : list string :=
  if is_nil entries then lines
  else lines
       ++ ["*" +:+ title +:+ " (" +:+ pretty (Z.of_nat (length entries)) +:+ ")*"]
       ++ lines_of entries ++ [""].

Definition add_totals (total : option string) (lines : list string)
    : list string :=
  if no_line total then lines
  else lines ++ ["*Totals*"] ++ option_list total.

(** The sections after the two header lines and the blank line (the same
    statements in both functions). *)
Definition add_sections (cs : ChangeSet) (lines : list string) : list string :=
  let c := cats cs in
  add_totals (total_line cs)
    (add_section "Refinement Changes" (weapon_refinement_changes c)
    (add_section "Weapon Level Ups" (weapon_level_changes c)
    (add_section "Weapon Changes" (weapon_changes c)
    (add_section "Constellation Changes" (constellation_changes c)
    (add_section "Friendship Gains" (friendship_ups c)
    (add_section "Level Ups" (level_ups c)
    (add_section "New Characters" (new_chars c) lines))))))).

(** [strftime("%Y-%m-%d %H:%M:%S")] of a second since the epoch, UTC,
    for four-digit years. *)
Definition pad2 (n : Z) : string :=
  if decide (n < 10) then "0" +:+ pretty n else pretty n.

Definition pad4 (n : Z) : string :=
  if decide (n < 10) then "000" +:+ pretty n
  else if decide (n < 100) then "00" +:+ pretty n
  else if decide (n < 1000) then "0" +:+ pretty n
  else pretty n.

Definition civil_of_days (days : Z) : Z * Z * Z :=
  let z := days + 719468 in
  let era := z `div` 146097 in
  let doe := z - era * 146097 in
  let yoe := (doe - doe `div` 1460 + doe `div` 36524 - doe `div` 146096) `div` 365 in
  let doy := doe - (365 * yoe + yoe `div` 4 - yoe `div` 100) in
  let mp := (5 * doy + 2) `div` 153 in
  let d := doy - (153 * mp + 2) `div` 5 + 1 in
  let m := if decide (mp < 10) then mp + 3 else mp - 9 in
  let y := yoe + era * 400 + (if decide (m ≤ 2) then 1 else 0) in
  (y, m, d).

Definition strftime (secs : Z) : string :=
  let '(y, m, d) := civil_of_days (secs `div` 86400) in
  let s := secs `mod` 86400 in
  pad4 y +:+ "-" +:+ pad2 m +:+ "-" +:+ pad2 d +:+ " "
  +:+ pad2 (s `div` 3600) +:+ ":" +:+ pad2 ((s `mod` 3600) `div` 60)
  +:+ ":" +:+ pad2 (s `mod` 60).

(** The lines of the report of [maybe_post_character_diff]. *)
Definition latest_report_lines (account : Account)
    (prev_time_utc snapshot_time_utc : Z) (cs : ChangeSet) : list string :=
  add_sections cs
    [ mention_prefix account +:+ "*Genshin Character Updates — "
        +:+ name account +:+ "*";
      "_Snapshot: " +:+ strftime prev_time_utc +:+ " → "
        +:+ strftime snapshot_time_utc +:+ "_";
      "" ].

(** The lines of the report of [post_period_summary]. *)
Definition period_report_lines (account : Account) (label : string)
    (start_time end_time : Z) (cs : ChangeSet) : list string :=
  add_sections cs
    [ mention_prefix account +:+ "*Genshin Character Summary — "
        +:+ name account +:+ "*";
      "_Period: " +:+ label +:+ " (" +:+ strftime start_time +:+ " → "
        +:+ strftime end_time +:+ ")_";
      "" ].

(** ** Tables, the notification sink and the effects of a call *)

(** The content of [last_run_utc]: a text that
    [strptime(_, "%Y-%m-%d %H:%M:%S")] parses, represented by the second
    it denotes, or any other text, on which [strptime] raises. *)
Inductive last_run_text :=
  | Stamp (secs : Z)
  | Unparseable (text : string).

(** A row of [character_summary_runs]. *)
Record run_row := {
  run_account_name : string;
  period_label : string;
  last_run_utc : last_run_text
}.

(** The two tables, each in the order of its AUTOINCREMENT [id] (rows are
    only ever inserted). *)
Record database := {
  character_stats_snapshots : list snapshot_row;
  character_summary_runs : list run_row
}.

(** What [requests.post] does with a payload: it returns a response
    whose [ok] is true, or one whose [ok] is false, or it raises. *)
Inductive post_response :=
  | RespOk
  | RespNotOk (status_code : Z) (text : string)
  | PostRaises.

(** The statements executed on the connection, the posts and the
    warnings, in the order of execution.  The payload of a post is its
    lines joined by newlines and stripped. *)
Inductive effect :=
  | CreateRunsTableIfNotExists
  | SelectLastRun (account label : string)
  | SelectSnapshotTimes (account : string) (window_start window_end : Z)
  | SelectPreviousTime (account : string) (before : Z)
  | SelectBatch (account : string) (taken_at : Z)
  | SelectExistedBefore (account : string) (before : Z)
  | InsertRun (row : run_row)
  | Post (lines : list string)
  | LogWarning.

Record world := {
  db : database;
  trace : list effect
}.

Inductive exn :=
  | OverflowError
  | IndexError.

Inductive outcome (A : Type) :=
  | Returned (a : A)
  | Raised (e : exn).
Arguments Returned {A} a.
Arguments Raised {A} e.

(** Computations that read and extend the world and may raise. *)
Definition M (A : Type) : Type := world → outcome A * world.

#[global] Instance M_ret : MRet M := λ A a w, (Returned a, w).

#[global] Instance M_bind : MBind M := λ A B f m w,
  match m w with
  | (Returned a, w') => f a w'
  | (Raised e, w') => (Raised e, w')
  end.

Definition raise {A} (e : exn) : M A := λ w, (Raised e, w).

Definition emit (e : effect) : M unit := λ w,
  (Returned (), {| db := db w; trace := trace w ++ [e] |}).

Definition get_db : M database := λ w, (Returned (db w), w).

Definition put_db (d : database) : M unit := λ w,
  (Returned (), {| db := d; trace := trace w |}).

(** [SELECT DISTINCT ... ORDER BY ... ASC] on a column of seconds. *)
Definition distinct_ascending (l : list Z) : list Z :=
  merge_sort Z.le (remove_dups l).

(** [SELECT last_run_utc ... WHERE account_name = ? AND period_label = ?
    ORDER BY id DESC LIMIT 1], [fetchone]. *)
Definition last_run_of (d : database) (account label : string)
    : option last_run_text :=
  last_run_utc <$>
    last (filter (λ r, run_account_name r = account ∧ period_label r = label)
                 (character_summary_runs d)).

Definition select_last_run (account label : string)
    : M (option last_run_text) :=
  emit (SelectLastRun account label);;
  d ← get_db;
  mret (last_run_of d account label).

(** [SELECT DISTINCT taken_at_utc ... WHERE account_name = ? AND
    taken_at_utc >= ? AND taken_at_utc <= ? ORDER BY taken_at_utc ASC].
    The query compares texts: it selects these times when the two
    bounds of the window are in the years 1000 to 9999 (a bound of an
    earlier year is written with fewer digits and is ordered
    otherwise). *)
Definition snapshot_times_in (d : database) (account : string)
    (window_start window_end : Z) : list Z :=
  distinct_ascending
    (taken_at_utc <$>
       filter (λ r, account_name r = account
                    ∧ window_start ≤ taken_at_utc r
                    ∧ taken_at_utc r ≤ window_end)
              (character_stats_snapshots d)).

Definition select_snapshot_times (account : string)
    (window_start window_end : Z) : M (list Z) :=
  emit (SelectSnapshotTimes account window_start window_end);;
  d ← get_db;
  mret (snapshot_times_in d account window_start window_end).

(** [SELECT DISTINCT taken_at_utc ... WHERE account_name = ? AND
    taken_at_utc < ? ORDER BY taken_at_utc DESC LIMIT 1], [fetchone]. *)
Definition previous_time_of (d : database) (account : string) (before : Z)
    : option Z :=
  last (distinct_ascending
          (taken_at_utc <$>
             filter (λ r, account_name r = account ∧ taken_at_utc r < before)
                    (character_stats_snapshots d))).

Definition select_previous_time (account : string) (before : Z)
    : M (option Z) :=
  emit (SelectPreviousTime account before);;
  d ← get_db;
  mret (previous_time_of d account before).

Definition load_character_batch (account : string) (taken_at : Z)
    : M (gmap string CharacterRecord) :=
  emit (SelectBatch account taken_at);;
  d ← get_db;
  mret (_load_character_batch (character_stats_snapshots d) account taken_at).

(** [SELECT DISTINCT character_name ... WHERE account_name = ? AND
    taken_at_utc < ?], collected into a set. *)
Definition existed_before_of (d : database) (account : string) (before : Z)
    : gset string :=
  list_to_set
    (character_name <$>
       filter (λ r, account_name r = account ∧ taken_at_utc r < before)
              (character_stats_snapshots d)).

Definition select_existed_before (account : string) (before : Z)
    : M (gset string) :=
  emit (SelectExistedBefore account before);;
  d ← get_db;
  mret (existed_before_of d account before).

(** [INSERT INTO character_summary_runs ... VALUES (?, ?, ?)] and
    [conn.commit()]. *)
Definition insert_run (account label : string) (now_str : Z) : M unit :=
  let row := {| run_account_name := account; period_label := label;
                last_run_utc := Stamp now_str |} in
  emit (InsertRun row);;
  d ← get_db;
  put_db {| character_stats_snapshots := character_stats_snapshots d;
            character_summary_runs := character_summary_runs d ++ [row] |}.

(** [try: resp = requests.post(...); if not resp.ok: logging.warning(...)
    except Exception: logging.warning(...)]. *)
Definition post_to_slack (sink : list string → post_response)
    (lines : list string) : M unit :=
  emit (Post lines);;
  match sink lines with
  | RespOk => mret ()
  | RespNotOk _ _ => emit LogWarning
  | PostRaises => emit LogWarning
  end.

(** ** Time

    A [datetime] in UTC is the number of microseconds since the epoch.
    The text [strftime] writes drops the microseconds. *)

Definition strftime_secs (dt : Z) : Z := dt `div` 1000000.

(** [datetime.min] and [datetime.max], as UTC. *)
Definition datetime_min : Z := -62135596800 * 1000000.
Definition datetime_max : Z := 253402300800 * 1000000 - 1.

(** The seconds whose year has four digits, 1000-01-01 00:00:00 to
    9999-12-31 23:59:59: on these the TEXT columns are ordered as the
    seconds are, and [strptime] reads back what [strftime] wrote. *)
Definition four_digit_year (secs : Z) : Prop :=
  -30610224000 ≤ secs ≤ 253402300799.

#[global] Instance four_digit_year_dec secs : Decision (four_digit_year secs).
Proof. unfold four_digit_year. apply _. Defined.

(** [dt - datetime.timedelta(days=days)]. *)
Definition minus_days (dt days : Z) : M Z :=
  if decide (999999999 < Z.abs days) then raise OverflowError
  else
    let r := dt - days * 86400 * 1000000 in
    if decide (datetime_min ≤ r ≤ datetime_max) then mret r
    else raise OverflowError.

(** [(now_utc - last_run_dt).total_seconds() / 86400.0 < days_back - 1],
    both sides taken exactly, in microseconds.  The source compares the
    float quotient: an elapsed time that is exactly [days_back - 1] days
    or more is never below the bound in floats either, and one that is
    less stays below it in floats for [-198840 ≤ days_back ≤ 198842]
    (from 198843 days on, an elapsed time one microsecond short of the
    bound rounds up to it, and likewise below -198840). *)
Definition not_yet_due (now_utc last_run days_back : Z) : Prop :=
  now_utc - last_run * 1000000 < (days_back - 1) * 86400 * 1000000.

#[global] Instance not_yet_due_dec n l d : Decision (not_yet_due n l d).
Proof. unfold not_yet_due. apply _. Defined.

(** [if row: try: ... if delta_days < (days_back - 1): return
    except Exception: pass]. *)
Definition suppressed (row : option last_run_text) (now_utc days_back : Z)
    : bool :=
  match row with
  | Some (Stamp last_run) => bool_decide (not_yet_due now_utc last_run days_back)
  | Some (Unparseable _) => false
  | None => false
  end.

(** The evaluation is due: there is no record for the account and the
    label, or the latest one does not parse, or at least [days_back - 1]
    days have elapsed since it. *)
Definition due (row : option last_run_text) (now_utc days_back : Z) : Prop :=
  match row with
  | Some (Stamp last_run) =>
      (days_back - 1) * 86400 * 1000000 ≤ now_utc - last_run * 1000000
  | Some (Unparseable _) => True
  | None => True
  end.

(** ** The two entry points *)

(** [maybe_post_character_diff(conn, account, snapshot_time_utc,
    slack_webhook_url)]. *)
Definition maybe_post_character_diff (sink : list string → post_response)
    (account : Account) (snapshot_time_utc : Z) : M unit :=
  row ← select_previous_time (name account) snapshot_time_utc;
  match row with
  | None => mret ()
  | Some prev_time_utc =>
      prev_batch ← load_character_batch (name account) prev_time_utc;
      curr_batch ← load_character_batch (name account) snapshot_time_utc;
      let cs := latest_changes prev_batch curr_batch in
      if nothing_to_report cs then mret ()
      else post_to_slack sink
             (latest_report_lines account prev_time_utc snapshot_time_utc cs)
  end.

(** [post_period_summary(conn, account, slack_webhook_url, label,
    days_back)], with [now_utc] the reading of the clock. *)
Definition post_period_summary (sink : list string → post_response)
    (account : Account) (label : string) (days_back : Z) (now_utc : Z)
    : M unit :=
  emit CreateRunsTableIfNotExists;;
  let now_str := strftime_secs now_utc in
  row ← select_last_run (name account) label;
  if suppressed row now_utc days_back then mret ()
  else
    window_start_dt ← minus_days now_utc days_back;
    let window_start_str := strftime_secs window_start_dt in
    let window_end_str := now_str in
    snap_rows ← select_snapshot_times (name account)
                  window_start_str window_end_str;
    if decide (length snap_rows < 2)%nat then
      insert_run (name account) label now_str
    else
      match head snap_rows, last snap_rows with
      | Some start_time, Some end_time =>
          prev_batch ← load_character_batch (name account) start_time;
          curr_batch ← load_character_batch (name account) end_time;
          existed_before ← select_existed_before (name account) start_time;
          let cs := period_changes existed_before prev_batch curr_batch in
          if nothing_to_report cs then
            insert_run (name account) label now_str
          else
            post_to_slack sink
              (period_report_lines account label start_time end_time cs);;
            insert_run (name account) label now_str
      | _, _ => raise IndexError
      end.

(** A call on a database, with an empty record of effects. *)
Definition run {A} (m : M A) (d : database) : outcome A * world :=
  m {| db := d; trace := [] |}.

Definition posts (t : list effect) : list (list string) :=
  omap (λ e, match e with Post lines => Some lines | _ => None end) t.

Definition inserts (t : list effect) : list run_row :=
  omap (λ e, match e with InsertRun row => Some row | _ => None end) t.

(** The entries of a list that were appended for a given character. *)
Definition entries_for (who : string) (l : list entry) : list entry :=
  filter (λ e, e.1 = who) l.

(** ** Daily-note timers *)

(** [_format_timer(seconds, current, maximum)] of [store_daily_notes],
    on integers and [None]. *)
Definition _format_timer (seconds current maximum : option Z) : string :=
  let full :=
    match maximum, current with
    | Some maximum, Some current => bool_decide (maximum ≤ current)
    | _, _ => false
    end in
  if full then "Full"
  else
    match seconds with
    | None => "Unknown"
    | Some seconds =>
        if decide (seconds ≤ 0) then "Full"
        else
          let hours := seconds `div` 3600 in
          let minutes := (seconds `mod` 3600) `div` 60 in
          let parts : list string := [] in
          let parts :=
            if decide (hours ≠ 0) then parts ++ [pretty hours +:+ "h"]
            else parts in
          let parts :=
            if decide (minutes ≠ 0 ∨ parts = [])
            then parts ++ [pretty minutes +:+ "m"]
            else parts in
          "in " +:+ String.concat "" parts
    end.

(** ** Recovery times *)

(** A [datetime.datetime]: the reading of its own clock, in microseconds
    since 1970-01-01 00:00:00 on that clock, and its [tzinfo], a fixed
    offset from UTC in microseconds, or [None] for a naive value. *)
Record datetime := {
  wall : Z;
  tzinfo : option Z
}.

(** The values [_parse_recovery_seconds] tells apart.  A [bool] is an
    [int]; a [float] is given by its IEEE 754 value. *)
Inductive pyvalue :=
  | PyNone
  | PyInt (n : Z)
  | PyFloat (x : SpecFloat.spec_float)
  | PyStr (s : string)
  | PyDatetime (d : datetime)
  | PyOther.

Inductive pyexn :=
  | TypeError
  | ValueError
  | FloatOverflowError.

Inductive result (A : Type) :=
  | Ret (a : A)
  | Exc (e : pyexn).
Arguments Ret {A} a.
Arguments Exc {A} e.

(** [int(x)] on a float: the value rounded toward zero; NaN and the
    infinities raise. *)
Definition int_of_float (x : SpecFloat.spec_float) : result Z :=
  match x with
  | SpecFloat.S754_zero _ => Ret 0
  | SpecFloat.S754_infinity _ => Exc FloatOverflowError
  | SpecFloat.S754_nan => Exc ValueError
  | SpecFloat.S754_finite s m e =>
      let magnitude := Z.shiftl (Z.pos m) e in
      Ret (if s then - magnitude else magnitude)
  end.

(** [datetime.now(tz)] when the clock reads [now_utc]. *)
Definition datetime_now (now_utc : Z) (tz : Z) : datetime :=
  {| wall := now_utc + tz; tzinfo := Some tz |}.

(** [a - b] on datetimes, in microseconds: naive and aware values do not
    mix. *)
Definition datetime_sub (a b : datetime) : result Z :=
  match tzinfo a, tzinfo b with
  | None, None => Ret (wall a - wall b)
  | Some oa, Some ob => Ret ((wall a - oa) - (wall b - ob))
  | _, _ => Exc TypeError
  end.

(** [int(delta.total_seconds())], the division taken exactly: the float
    of the source is the same whole second for differences below 2^34
    seconds. *)
Definition whole_seconds (delta : Z) : Z := delta `quot` 1000000.

(** [s.replace("Z", "+00:00")]. *)
Fixpoint replace_Z (s : string) : string :=
  match s with
  | EmptyString => EmptyString
  | String c rest =>
      if decide (c = "Z"%char) then "+00:00" +:+ replace_Z rest
      else String c (replace_Z rest)
  end.

Section recovery.

(** The library functions on strings the resolver calls: [str.strip],
    [int] on a string ([None] where it raises) and
    [datetime.fromisoformat] ([None] where it raises). *)
Variable str_strip : string → string.
Variable int_of_str : string → option Z.
Variable fromisoformat : string → option datetime.

(** The clock, in microseconds since the epoch. *)
Variable now_utc : Z.

(** [value - datetime.now(value.tzinfo or timezone.utc)], in whole
    seconds. *)
Definition seconds_until (target_dt : datetime) : result Z :=
  let now := datetime_now now_utc (default 0 (tzinfo target_dt)) in
  match datetime_sub target_dt now with
  | Ret delta => Ret (whole_seconds delta)
  | Exc e => Exc e
  end.

(** [_parse_recovery_seconds(value)]. *)
Definition _parse_recovery_seconds (value : pyvalue) : result (option Z) :=
  match value with
  | PyNone => Ret None
  | PyInt n => Ret (Some n)
  | PyFloat x =>
      match int_of_float x with
      | Ret n => Ret (Some n)
      | Exc e => Exc e
      end
  | PyStr value =>
      let s := str_strip value in
      if decide (s = "") then Ret None
      else
        match int_of_str s with
        | Some n => Ret (Some n)
        | None =>
            let iso := replace_Z s in
            match fromisoformat iso with
            | Some target_dt =>
                match seconds_until target_dt with
                | Ret n => Ret (Some n)
                | Exc _ => Ret None
                end
            | None => Ret None
            end
        end
  | PyDatetime value =>
      match seconds_until value with
      | Ret n => Ret (Some n)
      | Exc e => Exc e
      end
  | PyOther => Ret None
  end.

End recovery.

(** The seven lists, by name. *)
Inductive category :=
  | NewCharacters
  | LevelUps
  | FriendshipGains
  | ConstellationChanges
  | WeaponChanges
  | WeaponLevelUps
  | RefinementChanges.

Definition entries_of (k : category) (c : categories) : list entry :=
  match k with
  | NewCharacters => new_chars c
  | LevelUps => level_ups c
  | FriendshipGains => friendship_ups c
  | ConstellationChanges => constellation_changes c
  | WeaponChanges => weapon_changes c
  | WeaponLevelUps => weapon_level_changes c
  | RefinementChanges => weapon_refinement_changes c
  end.

(** What [compare_fields] leaves in the three weapon lists. *)
Definition weapon_entries (who : string) (old new : CharacterRecord)
    (c : categories) : Prop :=
  if decide (weapon_name new ≠ weapon_name old) then
    entries_for who (weapon_changes c)
    = [(who, weapon_change_line who (weapon_name old) (weapon_name new) new)]
    ∧ entries_for who (weapon_level_changes c) = []
    ∧ entries_for who (weapon_refinement_changes c) = []
  else
    entries_for who (weapon_changes c) = []
    ∧ entries_for who (weapon_level_changes c)
      = (if decide (weapon_level old < weapon_level new)
         then [(who, weapon_level_line who (weapon_name new) old new)]
         else [])
    ∧ entries_for who (weapon_refinement_changes c)
      = (if decide (weapon_refinement new ≠ weapon_refinement old)
         then [(who, weapon_refinement_line who (weapon_name new) old new)]
         else []).

(** What [compare_fields] leaves in the level, friendship and
    constellation lists. *)
Definition stat_entries (who : string) (old new : CharacterRecord)
    (c : categories) : Prop :=
  entries_for who (level_ups c)
  = (if decide (level old < level new)
     then [(who, level_up_line who old new)] else [])
  ∧ entries_for who (friendship_ups c)
    = (if decide (friendship old < friendship new)
       then [(who, friendship_up_line who old new)] else [])
  ∧ entries_for who (constellation_changes c)
    = (if decide (constellation new ≠ constellation old)
       then [(who, constellation_change_line who old new)] else []).

(** The row [insert_run] writes and the database after it. *)
Definition run_row_of (account label : string) (now_str : Z) : run_row :=
  {| run_account_name := account; period_label := label;
     last_run_utc := Stamp now_str |}.

Definition with_run (d : database) (row : run_row) : database :=
  {| character_stats_snapshots := character_stats_snapshots d;
     character_summary_runs := character_summary_runs d ++ [row] |}.

(** The warnings logged after a post. *)
Definition warnings (r : post_response) : list effect :=
  match r with
  | RespOk => []
  | RespNotOk _ _ => [LogWarning]
  | PostRaises => [LogWarning]
  end.

(** The batch of an account at a time, and the comparison
    [post_period_summary] makes between two times. *)
Definition batch_at (d : database) (account : string) (taken_at : Z)
    : gmap string CharacterRecord :=
  _load_character_batch (character_stats_snapshots d) account taken_at.

Definition period_changes_of (d : database) (account : string)
    (start_time end_time : Z) : ChangeSet :=
  period_changes (existed_before_of d account start_time)
    (batch_at d account start_time) (batch_at d account end_time).

(** ** A sample account

    Three snapshots of account "A": one before the last seven days, with
    Amber and Lisa; then Lisa and Kamisato Ayaka; then the three of them,
    Kamisato Ayaka with a higher level, constellation and refinement. *)
Definition sample_row (taken_at : Z) (who : string) (lv f c : Z)
    (w : option string) (wl wr : Z) : snapshot_row :=
  {| taken_at_utc := taken_at; account_name := "A"; character_name := who;
     col_level := Some lv; col_friendship := Some f;
     col_constellation := Some c; col_weapon_name := w;
     col_weapon_level := Some wl; col_weapon_refinement := Some wr |}.

Definition sample_snapshots : list snapshot_row :=
  [ sample_row 1699000000 "Amber" 20 2 0 None 0 0;
    sample_row 1699000000 "Lisa" 40 3 0 (Some "Magic Guide") 20 1;
    sample_row 1700000000 "Lisa" 40 3 0 (Some "Magic Guide") 20 1;
    sample_row 1700000000 "Kamisato Ayaka" 80 6 0 (Some "Mistsplitter") 90 1;
    sample_row 1700003600 "Lisa" 40 3 0 (Some "Magic Guide") 20 1;
    sample_row 1700003600 "Amber" 20 2 0 None 0 0;
    sample_row 1700003600 "Kamisato Ayaka" 90 6 1 (Some "Mistsplitter") 90 2 ].

Definition sample_db : database :=
  {| character_stats_snapshots := sample_snapshots;
     character_summary_runs := [] |}.

(** The same snapshots, with a summary of the last seven days run five
    days before [sample_now]. *)
Definition sample_db_run_5_days_ago : database :=
  with_run sample_db (run_row_of "A" "Last 7 days" 1699575000).

(** Only the latest snapshot. *)
Definition sample_db_one_snapshot : database :=
  {| character_stats_snapshots := drop 4 sample_snapshots;
     character_summary_runs := [] |}.

Definition sample_account : Account :=
  {| name := "A"; slack_mention := None |}.

(** 2023-11-15 00:10:00.123456 UTC. *)
Definition sample_now : Z := 1700007000123456.

Definition ayaka_before : CharacterRecord :=
  {| level := 80; friendship := 6; constellation := 0;
     weapon_name := "Mistsplitter"; weapon_level := 90;
     weapon_refinement := 1 |}.

Definition ayaka_after : CharacterRecord :=
  {| level := 90; friendship := 6; constellation := 1;
     weapon_name := "Mistsplitter"; weapon_level := 90;
     weapon_refinement := 2 |}.

Definition amber : CharacterRecord :=
  {| level := 20; friendship := 2; constellation := 0;
     weapon_name := ""; weapon_level := 0; weapon_refinement := 0 |}.

(** ** The short duration text *)

(** [_format_duration_short(seconds)]. *)
Definition _format_duration_short (seconds : option Z) : string :=
  match seconds with
  | None => "?"
  | Some seconds =>
      if decide (seconds ≤ 0) then "ready"
      else
        let hours := seconds `div` 3600 in
        let minutes := (seconds `mod` 3600) `div` 60 in
        let parts : list string := [] in
        let parts :=
          if decide (0 < hours) then parts ++ [pretty hours +:+ "h"]
          else parts in
        let parts :=
          if decide (0 < minutes) then parts ++ [pretty minutes +:+ "m"]
          else parts in
        if is_nil parts then "less than 1m" else String.concat " " parts
  end.

(** ** Storing a snapshot *)

(** The [weapon] entry of [c.model_dump()], as [get] reads it: each
    entry is absent or of the type of its column. *)
Record weapon_dump := {
  w_id : option Z;
  w_name : option string;
  w_rarity : option Z;
  w_level : option Z;
  w_type : option Z;
  w_refinement : option Z
}.

(** The entries of [c.model_dump()] the INSERT binds, each absent or of
    the type of its column: the integers, of which [id] goes to a NOT
    NULL column, and [name], which goes to the other one.  [element], a
    text no column read here holds, is left out. *)
Record character_dump := {
  c_id : option Z;
  c_name : option string;
  c_rarity : option Z;
  c_level : option Z;
  c_friendship : option Z;
  c_constellation : option Z;
  c_weapon : option weapon_dump
}.

(** [weapon = c_dict.get("weapon") or {}] followed by [weapon.get(_)]. *)
Definition weapon_get {A} (field : weapon_dump → option A)
    (weapon : option weapon_dump) : option A :=
  weapon ≫= field.

Definition row_of_character (now_utc : Z) (account who : string)
    (c : character_dump) : snapshot_row :=
  {| taken_at_utc := now_utc; account_name := account;
     character_name := who;
     col_level := c_level c;
     col_friendship := c_friendship c;
     col_constellation := c_constellation c;
     col_weapon_name := weapon_get w_name (c_weapon c);
     col_weapon_level := weapon_get w_level (c_weapon c);
     col_weapon_refinement := weapon_get w_refinement (c_weapon c) |}.

(** [sqlite3] binds a Python [int] as a signed integer of 64 bits. *)
Definition sqlite_integer (v : option Z) : Prop :=
  match v with
  | Some n => -9223372036854775808 ≤ n ≤ 9223372036854775807
  | None => True
  end.

#[global] Instance sqlite_integer_dec v : Decision (sqlite_integer v).
Proof. destruct v; simpl; apply _. Defined.

(** The ten integers of one INSERT can all be bound. *)
Definition binds (c : character_dump) : Prop :=
  sqlite_integer (c_id c)
  ∧ sqlite_integer (c_rarity c)
  ∧ sqlite_integer (c_level c)
  ∧ sqlite_integer (c_friendship c)
  ∧ sqlite_integer (c_constellation c)
  ∧ sqlite_integer (weapon_get w_id (c_weapon c))
  ∧ sqlite_integer (weapon_get w_rarity (c_weapon c))
  ∧ sqlite_integer (weapon_get w_level (c_weapon c))
  ∧ sqlite_integer (weapon_get w_type (c_weapon c))
  ∧ sqlite_integer (weapon_get w_refinement (c_weapon c)).

#[global] Instance binds_dec c : Decision (binds c).
Proof. unfold binds. apply _. Defined.

(** How the loop of INSERT statements ends. *)
Inductive insert_outcome :=
  | Inserted (table : list snapshot_row)
  | NotNullFailed
  | BindOverflow.

(** The loop of INSERT statements, on the connection
    [run_once_for_account] opens, where no statement has failed before.
    [cur.execute] binds the values first: an integer beyond 64 bits
    raises [OverflowError].  The statement then runs: an absent [id] or
    [name] violates the NOT NULL constraint of its column. *)
Fixpoint insert_characters (table : list snapshot_row) (now_utc : Z)
    (account : string) (characters : list character_dump)
    : insert_outcome :=
  match characters with
  | [] => Inserted table
  | c :: rest =>
      if decide (binds c) then
        match c_id c, c_name c with
        | Some _, Some who =>
            insert_characters
              (table ++ [row_of_character now_utc account who c])
              now_utc account rest
        | _, _ => NotNullFailed
        end
      else BindOverflow
  end.

(** What [store_character_stats_snapshots] does: it commits the rows and
    returns the text of the current second, or raises
    [sqlite3.IntegrityError] or [OverflowError] before the commit. *)
Inductive store_outcome :=
  | Stored (d : database) (now_utc : Z)
  | IntegrityError
  | StoreOverflowError.

(** [store_character_stats_snapshots(conn, account, characters)], with
    [now] the reading of the clock. *)
Definition store_character_stats_snapshots (d : database) (account : Account)
    (characters : list character_dump) (now : Z) : store_outcome :=
  let now_utc := strftime_secs now in
  match insert_characters (character_stats_snapshots d) now_utc
          (name account) characters with
  | Inserted table =>
      Stored {| character_stats_snapshots := table;
                character_summary_runs := character_summary_runs d |}
             now_utc
  | NotNullFailed => IntegrityError
  | BindOverflow => StoreOverflowError
  end.

(** The record the comparison reads back for a stored character. *)
Definition record_of_character (c : character_dump) : CharacterRecord :=
  {| level := or_zero (c_level c);
     friendship := or_zero (c_friendship c);
     constellation := or_zero (c_constellation c);
     weapon_name := or_empty (weapon_get w_name (c_weapon c));
     weapon_level := or_zero (weapon_get w_level (c_weapon c));
     weapon_refinement := or_zero (weapon_get w_refinement (c_weapon c)) |}.

(** The last character of a list with a given name. *)
Definition last_named (who : string) (characters : list character_dump)
    : option character_dump :=
  last (filter (λ c, c_name c = Some who) characters).

(** A character whose INSERT goes through. *)
Definition insertable (c : character_dump) : Prop :=
  binds c ∧ is_Some (c_id c) ∧ is_Some (c_name c).

(** ** The accounts file *)

Module AccountsFile.

(** What [json.load] returns. *)
#[local] Set Warnings "-register-all".
Inductive pyjson :=
  | JNull
  | JBool (b : bool)
  | JInt (n : Z)
  | JFloat (x : SpecFloat.spec_float)
  | JStr (s : string)
  | JList (items : list pyjson)
  | JDict (entries : gmap string pyjson).
#[local] Set Warnings "register-all".

(** The truth value of [if v] and [not v]. *)
Definition truthy (v : pyjson) : bool :=
  match v with
  | JNull => false
  | JBool b => b
  | JInt n => bool_decide (n ≠ 0)
  | JFloat (SpecFloat.S754_zero _) => false
  | JFloat _ => true
  | JStr s => bool_decide (s ≠ "")
  | JList items => bool_decide (items ≠ [])
  | JDict entries => bool_decide (entries ≠ ∅)
  end.

(** [item.get(key)]. *)
Definition get (item : gmap string pyjson) (key : string) : pyjson :=
  default JNull (item !! key).

(** The [Account] dataclass. *)
Record Account := {
  name : string;
  uid : string;
  ltuid_v2 : string;
  ltoken_v2 : string;
  db_name : string;
  slack_mention : option string;
  tz : string
}.

(** The five fields an entry must have. *)
Definition required : list string :=
  ["name"; "uid"; "ltuid_v2"; "ltoken_v2"; "db_name"].

Section load.

(** [str.strip], and [str] on a float, a list or a dict. *)
Variable str_strip : string → string.
Variable repr : pyjson → string.

(** [str(v)]. *)
Definition py_str (v : pyjson) : string :=
  match v with
  | JNull => "None"
  | JBool true => "True"
  | JBool false => "False"
  | JInt n => pretty n
  | JStr s => s
  | JFloat _ => repr v
  | JList _ => repr v
  | JDict _ => repr v
  end.

(** The names appended to [missing]. *)
Definition missing (item : gmap string pyjson) : list string :=
  filter (λ key, truthy (get item key) = false) required.

(** One iteration of the loop: the account appended, or [None] when the
    entry is skipped with a warning. *)
Definition account_of_item (item : pyjson) : option Account :=
  match item with
  | JDict item =>
      let slack_mention := get item "slack_mention" in
      let tz := default (JStr "UTC") (item !! "tz") in
      if is_nil (missing item) then
        Some {| name := str_strip (py_str (get item "name"));
                uid := str_strip (py_str (get item "uid"));
                ltuid_v2 := str_strip (py_str (get item "ltuid_v2"));
                ltoken_v2 := str_strip (py_str (get item "ltoken_v2"));
                db_name := str_strip (py_str (get item "db_name"));
                slack_mention :=
                  match slack_mention with
                  | JNull => None
                  | v => Some (str_strip (py_str v))
                  end;
                tz := if truthy tz then str_strip (py_str tz) else "UTC" |}
      else None
  | _ => None
  end.

(** [load_accounts_from_json], from the value [json.load] returned. *)
Definition load_accounts_from_json (raw : pyjson) : result (list Account) :=
  let raw_list :=
    match raw with
    | JDict _ => Some [raw]
    | JList items => Some items
    | _ => None
    end in
  match raw_list with
  | None => Exc ValueError
  | Some raw_list =>
      let accounts := omap account_of_item raw_list in
      if is_nil accounts then Exc ValueError else Ret accounts
  end.

End load.

End AccountsFile.

(** The rows a call of [store_character_stats_snapshots] inserts. *)
Definition stored_rows (now_utc : Z) (account : string)
    (characters : list character_dump) : list snapshot_row :=
  omap (λ c, (λ who, row_of_character now_utc account who c) <$> c_name c)
       characters.

(** [now_utc - timedelta(days=days_back)] raises [OverflowError]: the
    number of days is beyond what a [timedelta] holds, or the result is
    not a [datetime]. *)
Definition window_overflows (now_utc days_back : Z) : Prop :=
  999999999 < Z.abs days_back
  ∨ ¬ (datetime_min ≤ now_utc - days_back * 86400 * 1000000 ≤ datetime_max).

(** The entries of a list come in the order of their names, one at most
    for a name, each for a character of one of the two mappings. *)
Definition in_name_order (prev curr : gmap string CharacterRecord)
    (entries : list entry) : Prop :=
  StronglySorted str_le entries.*1
  ∧ NoDup entries.*1
  ∧ ∀ n, n ∈ entries.*1 → is_Some (prev !! n) ∨ is_Some (curr !! n).

(** The characters of the latest sample snapshot, as fetched again, and
    the sample database after they are stored at [sample_now]. *)
Definition sample_characters : list character_dump :=
  [ {| c_id := Some 10000006; c_name := Some "Lisa"; c_rarity := Some 4;
       c_level := Some 40; c_friendship := Some 3;
       c_constellation := Some 0;
       c_weapon := Some {| w_id := Some 14301; w_name := Some "Magic Guide";
                           w_rarity := Some 3; w_level := Some 20;
                           w_type := Some 10; w_refinement := Some 1 |} |};
    {| c_id := Some 10000021; c_name := Some "Amber"; c_rarity := Some 4;
       c_level := Some 20; c_friendship := Some 2;
       c_constellation := Some 0;
       c_weapon := None |};
    {| c_id := Some 10000002; c_name := Some "Kamisato Ayaka";
       c_rarity := Some 5; c_level := Some 90; c_friendship := Some 6;
       c_constellation := Some 1;
       c_weapon := Some {| w_id := Some 11509; w_name := Some "Mistsplitter";
                           w_rarity := Some 5; w_level := Some 90;
                           w_type := Some 1; w_refinement := Some 2 |} |} ].

Definition sample_db_stored : database :=
  {| character_stats_snapshots :=
       sample_snapshots ++ stored_rows 1700007000 "A" sample_characters;
     character_summary_runs := [] |}.

(** The sample snapshots without the earliest one. *)
Definition sample_db_recent : database :=
  {| character_stats_snapshots := drop 2 sample_snapshots;
     character_summary_runs := [] |}.

(** * Properties *)

(** ** The names the loops visit *)

Lemma all_names_NoDup (prev curr : gmap string CharacterRecord) :
  NoDup (all_names prev curr).
Proof.
  unfold all_names. rewrite merge_sort_Permutation. apply NoDup_elements.
Qed.

Lemma elem_of_all_names (prev curr : gmap string CharacterRecord) n :
  n ∈ all_names prev curr ↔ is_Some (prev !! n) ∨ is_Some (curr !! n).
Proof.
  unfold all_names. rewrite merge_sort_Permutation, elem_of_elements.
  rewrite elem_of_union, !elem_of_dom. done.
Qed.

#[global] Instance str_le_total : Total str_le.
Proof. intros a b. apply String.leb_total. Qed.

Lemma all_names_sorted (prev curr : gmap string CharacterRecord) :
  Sorted str_le (all_names prev curr).
Proof. apply Sorted_merge_sort, _. Qed.

Lemma or0_id z : or0 z = z.
Proof. unfold or0. case_decide; congruence. Qed.

Lemma or_empty_id s : or_empty (Some s) = s.
Proof. unfold or_empty. case_decide; congruence. Qed.

Lemma entries_for_none who (l : list entry) :
  Forall (λ e, e.1 ≠ who) l → entries_for who l = [].
Proof.
  unfold entries_for. induction 1 as [|e l He _ IH]; [done|].
  rewrite filter_cons_False by done. apply IH.
Qed.

Lemma entries_for_all who (l : list entry) :
  Forall (λ e, e.1 = who) l → entries_for who l = l.
Proof.
  unfold entries_for. induction 1 as [|e l He _ IH]; [done|].
  rewrite filter_cons_True by done. f_equal. apply IH.
Qed.

Lemma entries_for_app who (a b : list entry) :
  entries_for who (a ++ b) = entries_for who a ++ entries_for who b.
Proof. apply filter_app. Qed.

(** ** A loop that only appends

    [p] is one of the seven lists and [step] one of the two loop bodies:
    an iteration appends to the list what it would append to the empty
    one, and only entries of the visited name. *)

Section appending_loop.

Variable step : categories → string → categories.
Variable p : categories → list entry.

Hypothesis p_no_categories : p no_categories = [].
Hypothesis step_appends :
  ∀ acc n, p (step acc n) = p acc ++ p (step no_categories n).
Hypothesis step_tags :
  ∀ n e, e ∈ p (step no_categories n) → e.1 = n.

Lemma foldl_appends acc l :
  p (foldl step acc l)
  = p acc ++ concat ((λ n, p (step no_categories n)) <$> l).
Proof.
  revert acc. induction l as [|n l IH]; intros acc; simpl.
  - by rewrite app_nil_r.
  - rewrite IH, step_appends, <- (assoc_L (++)). done.
Qed.

Lemma entries_for_other who l :
  who ∉ l →
  entries_for who (concat ((λ n, p (step no_categories n)) <$> l)) = [].
Proof.
  induction l as [|n l IH]; intros Hnot; [done|].
  apply not_elem_of_cons in Hnot as [Hne Hnot].
  rewrite fmap_cons, concat_cons, entries_for_app, IH, app_nil_r by done.
  apply entries_for_none, Forall_forall.
  intros e He Heq. apply step_tags in He. congruence.
Qed.

Lemma entries_for_own who :
  entries_for who (p (step no_categories who)) = p (step no_categories who).
Proof.
  apply entries_for_all, Forall_forall.
  intros e He. by apply step_tags.
Qed.

Lemma entries_for_loop who l :
  NoDup l →
  entries_for who (p (foldl step no_categories l))
  = if decide (who ∈ l) then p (step no_categories who) else [].
Proof.
  intros Hnd. rewrite foldl_appends, p_no_categories. simpl.
  case_decide as Hin; [|by apply entries_for_other].
  apply list_elem_of_split in Hin as (l1 & l2 & ->).
  apply NoDup_app in Hnd as (_ & Hdisj & Hnd2).
  apply NoDup_cons in Hnd2 as [Hnot2 _].
  assert (who ∉ l1) as Hnot1.
  { intros Hin1. apply (Hdisj _ Hin1). left. }
  rewrite fmap_app, concat_app, fmap_cons, concat_cons.
  rewrite !entries_for_app, !entries_for_other, entries_for_own by done.
  by rewrite app_nil_r.
Qed.

End appending_loop.

(** ** The two loop bodies only append *)

Lemma compare_fields_appends k who old new acc :
  entries_of k (compare_fields who old new acc)
  = entries_of k acc ++ entries_of k (compare_fields who old new no_categories).
Proof.
  unfold compare_fields.
  destruct k; repeat case_decide; simpl; rewrite ?app_nil_r; done.
Qed.

Lemma compare_fields_tags k who old new e :
  e ∈ entries_of k (compare_fields who old new no_categories) → e.1 = who.
Proof.
  unfold compare_fields.
  destruct k; repeat case_decide; simpl;
    rewrite ?elem_of_cons, ?elem_of_nil; intros Hin;
    repeat destruct Hin as [Hin|Hin]; subst; done.
Qed.

Lemma latest_step_appends prev curr k acc n :
  entries_of k (latest_step prev curr acc n)
  = entries_of k acc ++ entries_of k (latest_step prev curr no_categories n).
Proof.
  unfold latest_step.
  destruct (prev !! n) as [old|], (curr !! n) as [new|];
    try apply compare_fields_appends;
    destruct k; simpl; rewrite ?app_nil_r; done.
Qed.

Lemma latest_step_tags prev curr k n e :
  e ∈ entries_of k (latest_step prev curr no_categories n) → e.1 = n.
Proof.
  unfold latest_step.
  destruct (prev !! n) as [old|], (curr !! n) as [new|];
    try apply compare_fields_tags;
    destruct k; simpl; rewrite ?elem_of_cons, ?elem_of_nil;
    intros Hin; repeat destruct Hin as [Hin|Hin]; subst; done.
Qed.

Lemma period_step_appends existed prev curr k acc n :
  entries_of k (period_step existed prev curr acc n)
  = entries_of k acc
    ++ entries_of k (period_step existed prev curr no_categories n).
Proof.
  unfold period_step.
  destruct (curr !! n) as [new|], (prev !! n) as [old|];
    try apply compare_fields_appends;
    try case_decide; destruct k; simpl; rewrite ?app_nil_r; done.
Qed.

Lemma period_step_tags existed prev curr k n e :
  e ∈ entries_of k (period_step existed prev curr no_categories n) → e.1 = n.
Proof.
  unfold period_step.
  destruct (curr !! n) as [new|], (prev !! n) as [old|];
    try apply compare_fields_tags;
    try case_decide; destruct k; simpl; rewrite ?elem_of_cons, ?elem_of_nil;
    intros Hin; repeat destruct Hin as [Hin|Hin]; subst; done.
Qed.

Lemma entries_of_no_categories k : entries_of k no_categories = [].
Proof. by destruct k. Qed.

(** What a loop leaves in a list for a character is what the iteration
    on that character appends. *)
Lemma latest_entries_for prev curr k who :
  entries_for who (entries_of k (latest_categories prev curr))
  = entries_of k (latest_step prev curr no_categories who).
Proof.
  unfold latest_categories.
  rewrite (entries_for_loop (latest_step prev curr) (entries_of k)
             (entries_of_no_categories k)
             (λ acc n, latest_step_appends prev curr k acc n)
             (latest_step_tags prev curr k))
    by apply all_names_NoDup.
  case_decide as Hin; [done|].
  rewrite elem_of_all_names in Hin. unfold latest_step.
  destruct (prev !! who) eqn:Hp, (curr !! who) eqn:Hc;
    try (exfalso; apply Hin; eauto; fail).
  by rewrite entries_of_no_categories.
Qed.

Lemma period_entries_for existed prev curr k who :
  entries_for who (entries_of k (period_categories existed prev curr))
  = entries_of k (period_step existed prev curr no_categories who).
Proof.
  unfold period_categories.
  rewrite (entries_for_loop (period_step existed prev curr) (entries_of k)
             (entries_of_no_categories k)
             (λ acc n, period_step_appends existed prev curr k acc n)
             (period_step_tags existed prev curr k))
    by apply all_names_NoDup.
  case_decide as Hin; [done|].
  rewrite elem_of_all_names in Hin. unfold period_step.
  destruct (prev !! who) eqn:Hp, (curr !! who) eqn:Hc;
    try (exfalso; apply Hin; eauto; fail).
  by rewrite entries_of_no_categories.
Qed.

(** The loop of [post_period_summary] with nothing seen before the window
    is the loop of [maybe_post_character_diff]. *)
Lemma period_step_latest prev curr acc n :
  period_step ∅ prev curr acc n = latest_step prev curr acc n.
Proof.
  unfold period_step, latest_step.
  by destruct (curr !! n), (prev !! n).
Qed.

Lemma period_categories_latest prev curr :
  period_categories ∅ prev curr = latest_categories prev curr.
Proof.
  unfold period_categories, latest_categories.
  generalize no_categories. induction (all_names prev curr) as [|n l IH];
    intros acc; simpl; [done|].
  by rewrite period_step_latest, IH.
Qed.

(** ** Characters on one side only *)

Lemma latest_step_one_side prev curr who :
  prev !! who = None ∨ curr !! who = None →
  latest_step prev curr no_categories who
  = match curr !! who with
    | Some new => append_new_char (who, new_char_line who new) no_categories
    | None => no_categories
    end.
Proof.
  unfold latest_step. intros [->| ->]; [done|]. by destruct (prev !! who).
Qed.

Lemma period_step_one_side existed prev curr who :
  prev !! who = None ∨ curr !! who = None →
  period_step existed prev curr no_categories who
  = match curr !! who with
    | Some new =>
        if decide (who ∈ existed) then no_categories
        else append_new_char (who, new_char_line who new) no_categories
    | None => no_categories
    end.
Proof.
  unfold period_step. intros [Hp|Hc].
  - rewrite Hp. destruct (curr !! who); [|done].
    repeat case_decide; done.
  - by rewrite Hc.
Qed.

(** C1 (as amended).  For a character that is in one of the two mappings
    only.  In the comparison with the previous snapshot, a character that
    is only in the target has exactly one entry among the new characters,
    showing its current level, constellation, friendship and weapon.  In
    the period summary it has that entry when no snapshot before the
    window has its name, and no entry otherwise.  In both, it has no
    entry in any of the six other lists, and a character that is only in
    the reference has no entry in any list. *)
Theorem new_and_removed_characters
    (existed : gset string) (prev curr : gmap string CharacterRecord)
    (who : string) :
  prev !! who = None ∨ curr !! who = None →
  entries_for who (new_chars (latest_categories prev curr))
  = match curr !! who with
    | Some new => [(who, new_char_line who new)]
    | None => []
    end
  ∧ entries_for who (new_chars (period_categories existed prev curr))
    = match curr !! who with
      | Some new =>
          if decide (who ∈ existed) then []
          else [(who, new_char_line who new)]
      | None => []
      end
  ∧ ∀ k, k ≠ NewCharacters →
      entries_for who (entries_of k (latest_categories prev curr)) = []
      ∧ entries_for who (entries_of k (period_categories existed prev curr))
        = [].
Proof.
  intros Hside.
  pose proof (latest_entries_for prev curr) as HL.
  pose proof (period_entries_for existed prev curr) as HP.
  split; [|split].
  - rewrite (HL NewCharacters), latest_step_one_side by done.
    by destruct (curr !! who).
  - rewrite (HP NewCharacters), period_step_one_side by done.
    destruct (curr !! who); [|done]. by case_decide.
  - intros k Hk. rewrite HL, HP.
    rewrite latest_step_one_side, period_step_one_side by done.
    destruct (curr !! who); [|by destruct k].
    case_decide; by destruct k.
Qed.

(** ** Characters in both mappings *)

Lemma latest_step_both prev curr who old new :
  prev !! who = Some old → curr !! who = Some new →
  latest_step prev curr no_categories who
  = compare_fields who old new no_categories.
Proof. unfold latest_step. by intros -> ->. Qed.

Lemma period_step_both existed prev curr who old new :
  prev !! who = Some old → curr !! who = Some new →
  period_step existed prev curr no_categories who
  = compare_fields who old new no_categories.
Proof. unfold period_step. by intros -> ->. Qed.

Lemma compare_fields_weapon who old new c :
  (∀ k, entries_for who (entries_of k c)
        = entries_of k (compare_fields who old new no_categories)) →
  weapon_entries who old new c.
Proof.
  intros Hc. unfold weapon_entries.
  pose proof (Hc WeaponChanges) as H1.
  pose proof (Hc WeaponLevelUps) as H2.
  pose proof (Hc RefinementChanges) as H3.
  cbn [entries_of] in H1, H2, H3. rewrite H1, H2, H3. clear Hc H1 H2 H3.
  unfold compare_fields. rewrite !or0_id, !or_empty_id.
  repeat case_decide; simpl; done.
Qed.

(** C4.  For a character in both mappings, in the comparison with the
    previous snapshot and in the period summary: when the weapon name
    differs, the character has exactly one weapon-change entry and no
    weapon-level or refinement entry, whatever the weapon level and
    refinement are; when the weapon name is the same, it has no
    weapon-change entry, one weapon-level entry iff the level is strictly
    greater than before, and one refinement entry iff the refinement
    differs. *)
Theorem weapon_change_supersedes
    (existed : gset string) (prev curr : gmap string CharacterRecord)
    (who : string) (old new : CharacterRecord) :
  prev !! who = Some old →
  curr !! who = Some new →
  weapon_entries who old new (latest_categories prev curr)
  ∧ weapon_entries who old new (period_categories existed prev curr).
Proof.
  intros Hp Hc. split; apply compare_fields_weapon; intros k.
  - by rewrite latest_entries_for, (latest_step_both _ _ _ old new).
  - by rewrite period_entries_for, (period_step_both _ _ _ _ old new).
Qed.

Lemma compare_fields_stats who old new c :
  (∀ k, entries_for who (entries_of k c)
        = entries_of k (compare_fields who old new no_categories)) →
  stat_entries who old new c.
Proof.
  intros Hc. unfold stat_entries.
  pose proof (Hc LevelUps) as H1.
  pose proof (Hc FriendshipGains) as H2.
  pose proof (Hc ConstellationChanges) as H3.
  cbn [entries_of] in H1, H2, H3. rewrite H1, H2, H3. clear Hc H1 H2 H3.
  unfold compare_fields. rewrite !or0_id, !or_empty_id.
  repeat case_decide; simpl; done.
Qed.

(** C5.  For a character in both mappings, in the comparison with the
    previous snapshot and in the period summary: there is one level-up
    entry iff the target level is strictly greater than the reference
    level, one friendship entry iff the target friendship is strictly
    greater, and one constellation entry iff the constellation differs,
    in either direction; an equal or lower level or friendship gives no
    entry. *)
Theorem level_friendship_constellation
    (existed : gset string) (prev curr : gmap string CharacterRecord)
    (who : string) (old new : CharacterRecord) :
  prev !! who = Some old →
  curr !! who = Some new →
  stat_entries who old new (latest_categories prev curr)
  ∧ stat_entries who old new (period_categories existed prev curr).
Proof.
  intros Hp Hc. split; apply compare_fields_stats; intros k.
  - by rewrite latest_entries_for, (latest_step_both _ _ _ old new).
  - by rewrite period_entries_for, (period_step_both _ _ _ _ old new).
Qed.

(** ** The totals line *)

Lemma pretty_negative (d : Z) : d < 0 → pretty d = "-" +:+ pretty (Z.abs d).
Proof. destruct d; [lia|lia|done]. Qed.

(** C8.  In the comparison with the previous snapshot and in the period
    summary, the totals line is present iff the two mappings differ in
    their number of characters; it then shows the old count, the new
    count and the difference, written with [+] when the new count is the
    greater and with [-] when it is the smaller. *)
Theorem total_line_signed_delta
    (existed : gset string) (prev curr : gmap string CharacterRecord) :
  total_line (period_changes existed prev curr)
  = total_line (latest_changes prev curr)
  ∧ total_line (latest_changes prev curr)
    = (let prev_total := Z.of_nat (size prev) in
       let curr_total := Z.of_nat (size curr) in
       if decide (size prev = size curr) then None
       else Some ("• Characters: " +:+ pretty prev_total +:+ " → "
                  +:+ pretty curr_total +:+ " ("
                  +:+ (if decide (prev_total < curr_total) then "+" else "-")
                  +:+ pretty (Z.abs (curr_total - prev_total)) +:+ ")")).
Proof.
  split; [done|]. simpl. unfold total_line_of.
  repeat case_decide; try lia; try done.
  - rewrite Z.abs_eq by lia. done.
  - rewrite (pretty_negative (_ - _)) by lia. done.
Qed.

(** ** Nothing to report *)

Lemma is_nil_true {A} (l : list A) : is_nil l = true ↔ l = [].
Proof. by destruct l. Qed.

Lemma no_line_true (o : option string) :
  no_line o = true ↔ o = None ∨ o = Some "".
Proof.
  destruct o as [line|]; simpl; [|by intuition].
  rewrite bool_decide_eq_true. split; [intros ->; by right|].
  intros [?|?]; congruence.
Qed.

Lemma nothing_to_report_iff cs :
  nothing_to_report cs = true
  ↔ (∀ k, entries_of k (cats cs) = [])
    ∧ (total_line cs = None ∨ total_line cs = Some "").
Proof.
  unfold nothing_to_report.
  rewrite !andb_true_iff, !is_nil_true, no_line_true. split.
  - intros [[[[[[[? ?] ?] ?] ?] ?] ?] ?]. split; [|done]. by intros [].
  - intros [Hk ?].
    pose proof (Hk NewCharacters). pose proof (Hk LevelUps).
    pose proof (Hk FriendshipGains). pose proof (Hk ConstellationChanges).
    pose proof (Hk WeaponChanges). pose proof (Hk WeaponLevelUps).
    pose proof (Hk RefinementChanges). done.
Qed.

Lemma compare_fields_same who r acc : compare_fields who r r acc = acc.
Proof.
  unfold compare_fields. rewrite !or0_id.
  repeat case_decide; try lia; done.
Qed.

Lemma period_step_same existed m acc n : period_step existed m m acc n = acc.
Proof.
  unfold period_step. destruct (m !! n); [|done]. apply compare_fields_same.
Qed.

Lemma period_categories_same existed m :
  period_categories existed m m = no_categories.
Proof.
  unfold period_categories. generalize no_categories.
  induction (all_names m m) as [|n l IH]; intros acc; simpl; [done|].
  by rewrite period_step_same, IH.
Qed.

Lemma total_line_of_same m : total_line_of m m = None.
Proof. unfold total_line_of. by case_decide. Qed.

Lemma identical_mappings_nothing existed m :
  nothing_to_report (latest_changes m m) = true
  ∧ nothing_to_report (period_changes existed m m) = true.
Proof.
  unfold nothing_to_report, latest_changes, period_changes. simpl.
  rewrite <- period_categories_latest, !period_categories_same.
  by rewrite total_line_of_same.
Qed.

Lemma total_line_of_not_empty prev curr : total_line_of prev curr ≠ Some "".
Proof. unfold total_line_of. by case_decide. Qed.

(** ** Running [post_period_summary] *)

Lemma strftime_secs_minus_days now days :
  strftime_secs (now - days * 86400 * 1000000)
  = strftime_secs now - days * 86400.
Proof.
  unfold strftime_secs.
  replace (now - days * 86400 * 1000000)
    with (now + (- (days * 86400)) * 1000000) by lia.
  rewrite Z.div_add by lia. lia.
Qed.

Lemma minus_days_returns now days w :
  four_digit_year (strftime_secs now) →
  four_digit_year (strftime_secs now - days * 86400) →
  minus_days now days w = (Returned (now - days * 86400 * 1000000), w).
Proof.
  unfold four_digit_year, strftime_secs, minus_days, datetime_min, datetime_max.
  intros Hnow Hstart.
  pose proof (Z.div_mod now 1000000 ltac:(lia)) as Hdm.
  pose proof (Z.mod_pos_bound now 1000000 ltac:(lia)) as Hmod.
  repeat case_decide; try done; lia.
Qed.

Ltac run_monad :=
  unfold run, select_last_run, select_snapshot_times, load_character_batch,
    select_existed_before, select_previous_time, insert_run, post_to_slack,
    emit, get_db, put_db, raise, mbind, M_bind, mret, M_ret;
  simpl.

(** The suppressed evaluation: the two statements before the test and
    nothing else. *)
Lemma period_suppressed sink account label days_back now_utc d :
  suppressed (last_run_of d (name account) label) now_utc days_back = true →
  run (post_period_summary sink account label days_back now_utc) d
  = (Returned (),
     {| db := d;
        trace := [CreateRunsTableIfNotExists;
                  SelectLastRun (name account) label] |}).
Proof.
  intros Hs. unfold post_period_summary. run_monad. by rewrite Hs.
Qed.

(** The due evaluation with fewer than two snapshot times in the window. *)
Lemma period_short_window sink account label days_back now_utc d :
  let now_str := strftime_secs now_utc in
  let window_start := now_str - days_back * 86400 in
  four_digit_year now_str →
  four_digit_year window_start →
  suppressed (last_run_of d (name account) label) now_utc days_back = false →
  (length (snapshot_times_in d (name account) window_start now_str) < 2)%nat →
  run (post_period_summary sink account label days_back now_utc) d
  = (Returned (),
     {| db := with_run d (run_row_of (name account) label now_str);
        trace := [CreateRunsTableIfNotExists;
                  SelectLastRun (name account) label;
                  SelectSnapshotTimes (name account) window_start now_str;
                  InsertRun (run_row_of (name account) label now_str)] |}).
Proof.
  intros now_str window_start Hnow Hstart Hs Hlen.
  unfold post_period_summary. run_monad. rewrite Hs.
  rewrite minus_days_returns by done. simpl.
  rewrite strftime_secs_minus_days. fold now_str window_start.
  case_decide; [done|lia].
Qed.

(** The due evaluation with two snapshot times or more. *)
Lemma period_long_window sink account label days_back now_utc d :
  let now_str := strftime_secs now_utc in
  let window_start := now_str - days_back * 86400 in
  let snap_rows := snapshot_times_in d (name account) window_start now_str in
  four_digit_year now_str →
  four_digit_year window_start →
  suppressed (last_run_of d (name account) label) now_utc days_back = false →
  (2 ≤ length snap_rows)%nat →
  ∃ start_time end_time,
    head snap_rows = Some start_time
    ∧ last snap_rows = Some end_time
    ∧ let cs := period_changes_of d (name account) start_time end_time in
      let lines :=
        period_report_lines account label start_time end_time cs in
      run (post_period_summary sink account label days_back now_utc) d
      = (Returned (),
         {| db := with_run d (run_row_of (name account) label now_str);
            trace :=
              [CreateRunsTableIfNotExists;
               SelectLastRun (name account) label;
               SelectSnapshotTimes (name account) window_start now_str;
               SelectBatch (name account) start_time;
               SelectBatch (name account) end_time;
               SelectExistedBefore (name account) start_time]
              ++ (if nothing_to_report cs then []
                  else Post lines :: warnings (sink lines))
              ++ [InsertRun (run_row_of (name account) label now_str)] |}).
Proof.
  intros now_str window_start snap_rows Hnow Hstart Hs Hlen.
  destruct (head snap_rows) as [start_time|] eqn:Hhead;
    [|by destruct snap_rows; simpl in *; [lia|]].
  destruct (last snap_rows) as [end_time|] eqn:Hlast;
    [|apply last_None in Hlast; rewrite Hlast in Hlen; simpl in Hlen; lia].
  exists start_time, end_time. split; [done|]. split; [done|].
  intros cs lines.
  unfold post_period_summary. run_monad. rewrite Hs.
  rewrite minus_days_returns by done. simpl.
  rewrite strftime_secs_minus_days. fold now_str window_start snap_rows.
  case_decide; [lia|]. rewrite Hhead, Hlast. cbn [db trace].
  fold (batch_at d (name account) start_time).
  fold (batch_at d (name account) end_time).
  fold (period_changes_of d (name account) start_time end_time).
  fold cs. destruct (nothing_to_report cs); [done|].
  fold lines. by destruct (sink lines).
Qed.

Lemma last_run_of_with_run d account label now_str :
  last_run_of (with_run d (run_row_of account label now_str)) account label
  = Some (Stamp now_str).
Proof.
  unfold last_run_of, with_run, run_row_of. simpl.
  rewrite filter_app, filter_cons_True by done.
  by rewrite filter_nil, last_snoc.
Qed.

Lemma suppressed_true_iff row now_utc days_back :
  suppressed row now_utc days_back = true
  ↔ ∃ last_run, row = Some (Stamp last_run)
                ∧ now_utc - last_run * 1000000
                  < (days_back - 1) * 86400 * 1000000.
Proof.
  unfold suppressed, not_yet_due. split.
  - destruct row as [[last_run|?]|]; try done.
    rewrite bool_decide_eq_true. eauto.
  - intros (last_run & -> & ?). by rewrite bool_decide_eq_true.
Qed.

Lemma due_not_suppressed row now_utc days_back :
  due row now_utc days_back → suppressed row now_utc days_back = false.
Proof.
  unfold due, suppressed, not_yet_due.
  destruct row as [[last_run|?]|]; try done.
  intros Hdue. apply bool_decide_eq_false. lia.
Qed.

(** C2.  For a [days_back] from -198840 to 198842: when the latest
    record of the account and the label holds a time that parses, and
    the time elapsed since then is less than [days_back - 1] days, the
    evaluation returns after reading that record: no snapshot is queried,
    no batch is loaded, nothing is posted or logged, no record is
    inserted, and the database is the one it was given.  The bound on
    [days_back] is the range where the floating-point quotient the source
    compares decides as the exact elapsed time does. *)
Theorem not_due_leaves_everything_untouched
    (sink : list string → post_response) (account : Account)
    (label : string) (days_back now_utc : Z) (d : database) (last_run : Z) :
  -198840 ≤ days_back ≤ 198842 →
  last_run_of d (name account) label = Some (Stamp last_run) →
  now_utc - last_run * 1000000 < (days_back - 1) * 86400 * 1000000 →
  run (post_period_summary sink account label days_back now_utc) d
  = (Returned (),
     {| db := d;
        trace := [CreateRunsTableIfNotExists;
                  SelectLastRun (name account) label] |}).
Proof.
  intros _ Hrow Helapsed. apply period_suppressed.
  apply suppressed_true_iff. eauto.
Qed.

(** C3.  When the evaluation is due (there is no record, or the latest
    one does not parse, or at least [days_back - 1] days have elapsed
    since it) and the window from [days_back] days before now to now has
    fewer than two distinct snapshot times, the evaluation returns after
    inserting a record with the current second: the latest record of the
    account and the label is then that second, no batch was loaded and
    nothing was posted.  The current second and the start of the window
    are taken in the years 1000 to 9999. *)
Theorem due_without_two_snapshots
    (sink : list string → post_response) (account : Account)
    (label : string) (days_back now_utc : Z) (d : database) :
  let now_str := strftime_secs now_utc in
  let window_start := now_str - days_back * 86400 in
  four_digit_year now_str →
  four_digit_year window_start →
  due (last_run_of d (name account) label) now_utc days_back →
  (length (snapshot_times_in d (name account) window_start now_str) < 2)%nat →
  let d' := with_run d (run_row_of (name account) label now_str) in
  run (post_period_summary sink account label days_back now_utc) d
  = (Returned (),
     {| db := d';
        trace := [CreateRunsTableIfNotExists;
                  SelectLastRun (name account) label;
                  SelectSnapshotTimes (name account) window_start now_str;
                  InsertRun (run_row_of (name account) label now_str)] |})
  ∧ last_run_of d' (name account) label = Some (Stamp now_str)
  ∧ character_stats_snapshots d' = character_stats_snapshots d.
Proof.
  intros now_str window_start Hnow Hstart Hdue Hlen d'.
  apply due_not_suppressed in Hdue.
  split; [by apply period_short_window|].
  split; [apply last_run_of_with_run|done].
Qed.

(** C10, amended.  When the evaluation is due and the comparison of the
    first and the last snapshot of the window has something to report,
    the report is posted once, a failed post (a response that is not ok,
    or an exception) is logged and nothing more, and in every case the
    record with the current second is inserted after the post.  For a
    [days_back] from -198840 to 198842, an evaluation of the same period
    on the resulting database less than [days_back - 1] days after that
    second is suppressed; one that comes [days_back - 1] days after it
    or later is due again.  The current second and the start of the window are
    taken in the years 1000 to 9999. *)
Theorem last_run_advances_after_post
    (sink : list string → post_response) (account : Account)
    (label : string) (days_back now_utc : Z) (d : database) :
  let now_str := strftime_secs now_utc in
  let window_start := now_str - days_back * 86400 in
  let snap_rows := snapshot_times_in d (name account) window_start now_str in
  four_digit_year now_str →
  four_digit_year window_start →
  due (last_run_of d (name account) label) now_utc days_back →
  (2 ≤ length snap_rows)%nat →
  (∀ start_time end_time,
     head snap_rows = Some start_time → last snap_rows = Some end_time →
     nothing_to_report (period_changes_of d (name account) start_time end_time)
     = false) →
  ∃ start_time end_time,
    head snap_rows = Some start_time
    ∧ last snap_rows = Some end_time
    ∧ let cs := period_changes_of d (name account) start_time end_time in
      let lines :=
        period_report_lines account label start_time end_time cs in
      let d' := with_run d (run_row_of (name account) label now_str) in
      run (post_period_summary sink account label days_back now_utc) d
      = (Returned (),
         {| db := d';
            trace :=
              [CreateRunsTableIfNotExists;
               SelectLastRun (name account) label;
               SelectSnapshotTimes (name account) window_start now_str;
               SelectBatch (name account) start_time;
               SelectBatch (name account) end_time;
               SelectExistedBefore (name account) start_time;
               Post lines]
              ++ warnings (sink lines)
              ++ [InsertRun (run_row_of (name account) label now_str)] |})
      ∧ last_run_of d' (name account) label = Some (Stamp now_str)
      ∧ (∀ sink' later,
           -198840 ≤ days_back ≤ 198842 →
           later - now_str * 1000000 < (days_back - 1) * 86400 * 1000000 →
           run (post_period_summary sink' account label days_back later) d'
           = (Returned (),
              {| db := d';
                 trace := [CreateRunsTableIfNotExists;
                           SelectLastRun (name account) label] |}))
      ∧ ∀ later,
          (days_back - 1) * 86400 * 1000000 ≤ later - now_str * 1000000 →
          due (last_run_of d' (name account) label) later days_back.
Proof.
  intros now_str window_start snap_rows Hnow Hstart Hdue Hlen Hcs.
  apply due_not_suppressed in Hdue.
  destruct (period_long_window sink account label days_back now_utc d
              Hnow Hstart Hdue Hlen)
    as (start_time & end_time & Hhead & Hlast & Hrun).
  exists start_time, end_time. split; [done|]. split; [done|].
  intros cs lines d'. split; [|split; [|split]].
  - rewrite Hrun. fold now_str window_start cs lines d'.
    subst cs. by rewrite (Hcs start_time end_time Hhead Hlast).
  - apply last_run_of_with_run.
  - intros sink' later _ Hlater. apply period_suppressed.
    apply suppressed_true_iff. exists now_str.
    split; [apply last_run_of_with_run|done].
  - intros later Hlater. subst d'. by rewrite last_run_of_with_run.
Qed.

(** ** Running [maybe_post_character_diff] *)

Lemma latest_run sink account snapshot_time d :
  run (maybe_post_character_diff sink account snapshot_time) d
  = (Returned (),
     {| db := d;
        trace :=
          SelectPreviousTime (name account) snapshot_time ::
          match previous_time_of d (name account) snapshot_time with
          | None => []
          | Some prev_time =>
              let cs := latest_changes (batch_at d (name account) prev_time)
                          (batch_at d (name account) snapshot_time) in
              let lines :=
                latest_report_lines account prev_time snapshot_time cs in
              [SelectBatch (name account) prev_time;
               SelectBatch (name account) snapshot_time]
              ++ (if nothing_to_report cs then []
                  else Post lines :: warnings (sink lines))
          end |}).
Proof.
  unfold maybe_post_character_diff. run_monad.
  destruct (previous_time_of d (name account) snapshot_time) as [prev_time|];
    [|done].
  cbn [db trace]. fold (batch_at d (name account) prev_time).
  fold (batch_at d (name account) snapshot_time).
  destruct (nothing_to_report _); [done|]. simpl.
  by destruct (sink _).
Qed.

(** Membership of a post in a record of effects that is written out. *)
Ltac no_post_here :=
  rewrite ?elem_of_app, ?elem_of_cons, ?elem_of_nil;
  let Hin := fresh "Hin" in
  intros Hin; repeat destruct Hin as [Hin|Hin]; done.

Ltac the_post Hin :=
  rewrite ?elem_of_app, ?elem_of_cons, ?elem_of_nil in Hin;
  repeat destruct Hin as [Hin|Hin]; try done; by inversion Hin.

(** Every post of [post_period_summary] carries the report of a
    comparison that has something to report. *)
Lemma period_posts_have_something sink account label days_back now_utc d lines :
  let now_str := strftime_secs now_utc in
  let snap_rows :=
    snapshot_times_in d (name account) (now_str - days_back * 86400) now_str in
  Post lines
    ∈ trace (run (post_period_summary sink account label days_back now_utc) d).2 →
  ∃ start_time end_time,
    head snap_rows = Some start_time
    ∧ last snap_rows = Some end_time
    ∧ nothing_to_report
        (period_changes_of d (name account) start_time end_time) = false
    ∧ lines
      = period_report_lines account label start_time end_time
          (period_changes_of d (name account) start_time end_time).
Proof.
  intros now_str snap_rows.
  unfold post_period_summary. run_monad.
  destruct (suppressed _ _ _); simpl; [no_post_here|].
  unfold minus_days, raise.
  repeat case_decide; simpl; try no_post_here.
  rewrite strftime_secs_minus_days. fold now_str snap_rows.
  case_decide; simpl; [no_post_here|].
  destruct (head snap_rows) as [start_time|] eqn:Hhead; simpl;
    [|no_post_here].
  destruct (last snap_rows) as [end_time|] eqn:Hlast; simpl; [|no_post_here].
  cbn [db trace]. fold (batch_at d (name account) start_time).
  fold (batch_at d (name account) end_time).
  fold (period_changes_of d (name account) start_time end_time).
  destruct (nothing_to_report _) eqn:Hcs; simpl; [no_post_here|].
  intros Hin. exists start_time, end_time. repeat split; try done.
  destruct (sink _); simpl in Hin; the_post Hin.
Qed.

(** C9.  The test both functions make before building a report holds
    iff each of the seven lists is empty and the totals line is [None]
    or the empty string.  It holds for the comparison of a mapping with
    itself.  Every post of [maybe_post_character_diff] carries the report
    of the comparison of the batch of the previous snapshot time with the
    batch of the given one, and that comparison fails the test.  Every
    post of [post_period_summary] carries the report of the comparison of
    the first snapshot of its window with the last one, and that
    comparison fails the test (the two bounds of the window taken in the
    years 1000 to 9999).  So when the comparison a function makes has
    nothing to report, the function posts nothing. *)
Theorem empty_changeset_posts_nothing :
  (∀ cs, nothing_to_report cs = true
         ↔ (∀ k, entries_of k (cats cs) = [])
           ∧ (total_line cs = None ∨ total_line cs = Some ""))
  ∧ (∀ existed m,
       nothing_to_report (latest_changes m m) = true
       ∧ nothing_to_report (period_changes existed m m) = true)
  ∧ (∀ sink account snapshot_time d lines,
       Post lines
         ∈ trace (run (maybe_post_character_diff sink account snapshot_time)
                    d).2 →
       ∃ prev_time,
         previous_time_of d (name account) snapshot_time = Some prev_time
         ∧ let cs := latest_changes (batch_at d (name account) prev_time)
                       (batch_at d (name account) snapshot_time) in
           nothing_to_report cs = false
           ∧ lines = latest_report_lines account prev_time snapshot_time cs)
  ∧ (∀ sink account label days_back now_utc d lines,
       let now_str := strftime_secs now_utc in
       let window_start := now_str - days_back * 86400 in
       let snap_rows :=
         snapshot_times_in d (name account) window_start now_str in
       four_digit_year now_str →
       four_digit_year window_start →
       Post lines
         ∈ trace (run (post_period_summary sink account label days_back
                         now_utc) d).2 →
       ∃ start_time end_time,
         head snap_rows = Some start_time
         ∧ last snap_rows = Some end_time
         ∧ let cs := period_changes_of d (name account) start_time end_time in
           nothing_to_report cs = false
           ∧ lines
             = period_report_lines account label start_time end_time cs).
Proof.
  split; [apply nothing_to_report_iff|].
  split; [apply identical_mappings_nothing|].
  split.
  - intros sink account snapshot_time d lines. rewrite latest_run. simpl.
    destruct (previous_time_of _ _ _) as [prev_time|]; [|no_post_here].
    simpl. destruct (nothing_to_report _) eqn:Hcs; simpl; [no_post_here|].
    intros Hin. exists prev_time. split; [done|]. split; [done|].
    destruct (sink _); simpl in Hin; the_post Hin.
  - intros sink account label days_back now_utc d lines
      now_str window_start snap_rows _ _ Hin.
    apply period_posts_have_something in Hin
      as (start_time & end_time & Hhead & Hlast & Hcs & Hlines).
    by exists start_time, end_time.
Qed.

(** ** [_format_timer] *)

Lemma append_empty_r (s : string) : s +:+ "" = s.
Proof.
  induction s as [|c s IH]; [done|].
  change (String c (s +:+ "") = String c s). by rewrite IH.
Qed.

(** C6.  If the current and the maximum value are both known and the
    current one has reached the maximum, the timer reads "Full",
    whatever the seconds are.  Otherwise it reads "Unknown" when the
    seconds are unknown and "Full" when they are zero or negative.
    Otherwise it reads "in", then the hours with an "h", left out when
    the hours are zero, then the minutes with an "m", which are shown
    whenever the hours are zero (as "0m" too) and, with hours, when they
    are not zero. *)
Theorem format_timer_cases (seconds current maximum : option Z) :
  let full := ∃ c m, current = Some c ∧ maximum = Some m ∧ m ≤ c in
  (full → _format_timer seconds current maximum = "Full")
  ∧ (¬ full → seconds = None →
     _format_timer seconds current maximum = "Unknown")
  ∧ (¬ full → ∀ s, seconds = Some s → s ≤ 0 →
     _format_timer seconds current maximum = "Full")
  ∧ (¬ full → ∀ s, seconds = Some s → 0 < s →
     let hours := s `div` 3600 in
     let minutes := (s `mod` 3600) `div` 60 in
     0 ≤ hours ∧ 0 ≤ minutes < 60
     ∧ _format_timer seconds current maximum
       = "in "
         +:+ (if decide (hours = 0) then "" else pretty hours +:+ "h")
         +:+ (if decide (hours = 0 ∨ minutes ≠ 0)
              then pretty minutes +:+ "m" else "")).
Proof.
  intros full.
  assert (¬ full →
          match maximum, current with
          | Some maximum, Some current => bool_decide (maximum ≤ current)
          | _, _ => false
          end = false) as Hnot.
  { intros Hn. destruct maximum as [m|], current as [c|]; try done.
    apply bool_decide_eq_false. intros Hle. apply Hn. by exists c, m. }
  unfold _format_timer. split; [|split; [|split]].
  - intros (c & m & -> & -> & Hle). by rewrite bool_decide_eq_true_2.
  - intros Hn ->. by rewrite Hnot.
  - intros Hn s -> Hs. rewrite Hnot by done. by case_decide.
  - intros Hn s -> Hs.
    set (hours := s `div` 3600). set (minutes := (s `mod` 3600) `div` 60).
    assert (0 ≤ hours) by (apply Z.div_pos; lia).
    assert (0 ≤ minutes < 60) as Hminutes.
    { pose proof (Z.mod_pos_bound s 3600 ltac:(lia)). split.
      - apply Z.div_pos; lia.
      - apply Z.div_lt_upper_bound; lia. }
    split; [done|]. split; [done|].
    rewrite Hnot by done. case_decide; [lia|].
    repeat case_decide; simpl; rewrite ?append_empty_r; try done;
      exfalso; simpl in *; intuition congruence.
Qed.

(** ** [_parse_recovery_seconds] *)

Section recovery_properties.

Variable str_strip : string → string.
Variable int_of_str : string → option Z.
Variable fromisoformat : string → option datetime.
Variable now_utc : Z.

Abbreviation parse :=
  (_parse_recovery_seconds str_strip int_of_str fromisoformat now_utc).

Lemma seconds_until_aware now target offset :
  seconds_until now {| wall := target + offset; tzinfo := Some offset |}
  = Ret ((target - now) `quot` 1000000).
Proof.
  unfold seconds_until, datetime_sub, datetime_now, whole_seconds. simpl.
  do 2 f_equal. lia.
Qed.

Lemma seconds_until_naive now target :
  seconds_until now {| wall := target; tzinfo := None |} = Exc TypeError.
Proof. done. Qed.

(** The cases that resolve as documented. *)
Lemma parse_none : parse PyNone = Ret None.
Proof. done. Qed.

Lemma parse_int n : parse (PyInt n) = Ret (Some n).
Proof. done. Qed.

Lemma parse_numeric_string s n :
  str_strip s ≠ "" → int_of_str (str_strip s) = Some n →
  parse (PyStr s) = Ret (Some n).
Proof.
  intros Hne Hint. simpl. case_decide; [done|]. by rewrite Hint.
Qed.

Lemma parse_empty_string s : str_strip s = "" → parse (PyStr s) = Ret None.
Proof. intros Hs. simpl. by case_decide. Qed.

Lemma parse_unparseable_string s :
  int_of_str (str_strip s) = None →
  fromisoformat (replace_Z (str_strip s)) = None →
  parse (PyStr s) = Ret None.
Proof.
  intros Hint Hiso. simpl. case_decide; [done|]. by rewrite Hint, Hiso.
Qed.

Lemma parse_string_never_raises s : ∃ r, parse (PyStr s) = Ret r.
Proof.
  simpl. case_decide; [by eauto|].
  destruct (int_of_str _); [by eauto|].
  destruct (fromisoformat _); [|by eauto].
  destruct (seconds_until _ _); eauto.
Qed.

Lemma parse_aware_datetime target offset :
  parse (PyDatetime {| wall := target + offset; tzinfo := Some offset |})
  = Ret (Some ((target - now_utc) `quot` 1000000)).
Proof.
  unfold _parse_recovery_seconds. by rewrite seconds_until_aware.
Qed.

Lemma parse_aware_iso_string s target offset :
  str_strip s ≠ "" → int_of_str (str_strip s) = None →
  fromisoformat (replace_Z (str_strip s))
  = Some {| wall := target + offset; tzinfo := Some offset |} →
  parse (PyStr s) = Ret (Some ((target - now_utc) `quot` 1000000)).
Proof.
  intros Hne Hint Hiso. unfold _parse_recovery_seconds.
  case_decide; [done|]. by rewrite Hint, Hiso, seconds_until_aware.
Qed.

(** The cases that do not: a timestamp without a zone is not read as
    UTC, and a float that is not finite raises. *)
Lemma parse_naive_iso_string s target :
  int_of_str (str_strip s) = None →
  fromisoformat (replace_Z (str_strip s))
  = Some {| wall := target; tzinfo := None |} →
  parse (PyStr s) = Ret None.
Proof.
  intros Hint Hiso. simpl. case_decide; [done|]. by rewrite Hint, Hiso.
Qed.

Lemma parse_naive_datetime target :
  parse (PyDatetime {| wall := target; tzinfo := None |}) = Exc TypeError.
Proof. done. Qed.

Lemma parse_nan : parse (PyFloat SpecFloat.S754_nan) = Exc ValueError.
Proof. done. Qed.

Lemma parse_infinity sign :
  parse (PyFloat (SpecFloat.S754_infinity sign)) = Exc FloatOverflowError.
Proof. done. Qed.

(** C7, at the input [datetime.datetime(2030, 1, 1, 0, 0)], a datetime
    without a zone: the resolver does not return the seconds from now
    to 2030-01-01 00:00:00 UTC, and does not return at all: the
    subtraction of the zoned current time raises [TypeError]. *)
Theorem recovery_of_naive_datetime_raises :
  _parse_recovery_seconds str_strip int_of_str fromisoformat now_utc
    (PyDatetime {| wall := 1893456000 * 1000000; tzinfo := None |})
  = Exc TypeError.
Proof. apply parse_naive_datetime. Qed.

End recovery_properties.

(** ** Evaluations on the sample account *)

(** C1, against the claim as first stated: in the summary of the last
    seven days, Amber is in the last snapshot of the window and not in
    the first, and has no entry among the new characters, because a
    snapshot before the window has her name.  The report posted has no
    section of new characters. *)
Lemma returning_character_is_not_new :
  let prev := batch_at sample_db "A" 1700000000 in
  let curr := batch_at sample_db "A" 1700003600 in
  let existed := existed_before_of sample_db "A" 1700000000 in
  prev !! "Amber" = None
  ∧ curr !! "Amber" = Some amber
  ∧ entries_for "Amber" (new_chars (cats (period_changes existed prev curr)))
    = []
  ∧ posts (trace (run (post_period_summary (λ _, RespOk) sample_account
                         "Last 7 days" 7 sample_now) sample_db).2)
    = [ [ "*Genshin Character Summary — A*";
          "_Period: Last 7 days (2023-11-14 22:13:20 → 2023-11-14 23:13:20)_";
          "";
          "*Level Ups (1)*"; "• Kamisato Ayaka: Lv80 → Lv90"; "";
          "*Constellation Changes (1)*"; "• Kamisato Ayaka: C0 → C1"; "";
          "*Refinement Changes (1)*";
          "• Kamisato Ayaka (Mistsplitter): R1 → R2"; "";
          "*Totals*"; "• Characters: 2 → 3 (+1)" ] ].
Proof. vm_compute. repeat split. Qed.

Lemma empty_changeset_posts_nothing_witness :
  let now_str := strftime_secs sample_now in
  let window_start := now_str - 7 * 86400 in
  let snap_rows :=
    snapshot_times_in sample_db (name sample_account) window_start now_str in
  let lines :=
    period_report_lines sample_account "Last 7 days" 1700000000 1700003600
      (period_changes_of sample_db (name sample_account) 1700000000
         1700003600) in
  four_digit_year now_str
  ∧ four_digit_year window_start
  ∧ Post lines
      ∈ trace (run (post_period_summary (λ _, RespOk) sample_account
                      "Last 7 days" 7 sample_now) sample_db).2
  ∧ ∃ start_time end_time,
      head snap_rows = Some start_time
      ∧ last snap_rows = Some end_time
      ∧ let cs := period_changes_of sample_db (name sample_account)
                    start_time end_time in
        nothing_to_report cs = false
        ∧ lines
          = period_report_lines sample_account "Last 7 days" start_time
              end_time cs.
Proof.
  intros now_str window_start snap_rows lines.
  assert (four_digit_year now_str) as Hnow by (vm_compute; done).
  assert (four_digit_year window_start) as Hstart by (vm_compute; done).
  assert (Post lines
            ∈ trace (run (post_period_summary (λ _, RespOk) sample_account
                            "Last 7 days" 7 sample_now) sample_db).2) as Hin.
  { vm_compute. do 6 apply list_elem_of_further. apply list_elem_of_here. }
  split; [exact Hnow|]. split; [exact Hstart|]. split; [exact Hin|].
  exact (proj2 (proj2 (proj2 empty_changeset_posts_nothing))
           (λ _, RespOk) sample_account "Last 7 days" 7 sample_now sample_db
           lines Hnow Hstart Hin).
Defined.

(** C10, against the claim as first stated: the summary of the last
    seven days is posted at [sample_now] and its record inserted.  Six
    days later an evaluation of the same period, on the database the
    first one left, is due again: its window still holds the same two
    snapshots, it reads them again, posts the same report a second time
    and inserts a second record. *)
Lemma summary_is_sent_again_after_six_days :
  let first :=
    run (post_period_summary (λ _, RespOk) sample_account "Last 7 days" 7
           sample_now) sample_db in
  let later := sample_now + 6 * 86400 * 1000000 in
  let second :=
    run (post_period_summary (λ _, RespOk) sample_account "Last 7 days" 7
           later) (db first.2) in
  last_run_of (db first.2) "A" "Last 7 days"
  = Some (Stamp (strftime_secs sample_now))
  ∧ posts (trace first.2)
    = [ [ "*Genshin Character Summary — A*";
          "_Period: Last 7 days (2023-11-14 22:13:20 → 2023-11-14 23:13:20)_";
          "";
          "*Level Ups (1)*"; "• Kamisato Ayaka: Lv80 → Lv90"; "";
          "*Constellation Changes (1)*"; "• Kamisato Ayaka: C0 → C1"; "";
          "*Refinement Changes (1)*";
          "• Kamisato Ayaka (Mistsplitter): R1 → R2"; "";
          "*Totals*"; "• Characters: 2 → 3 (+1)" ] ]
  ∧ second.1 = Returned ()
  ∧ SelectBatch "A" 1700000000 ∈ trace second.2
  ∧ SelectBatch "A" 1700003600 ∈ trace second.2
  ∧ posts (trace second.2) = posts (trace first.2)
  ∧ inserts (trace second.2)
    = [run_row_of "A" "Last 7 days" (strftime_secs later)].
Proof.
  vm_compute. repeat split; try done.
  - do 3 apply list_elem_of_further. apply list_elem_of_here.
  - do 4 apply list_elem_of_further. apply list_elem_of_here.
Qed.

Lemma new_and_removed_characters_witness :
  let prev := batch_at sample_db "A" 1700000000 in
  let curr := batch_at sample_db "A" 1700003600 in
  let existed := existed_before_of sample_db "A" 1700000000 in
  (prev !! "Amber" = None ∨ curr !! "Amber" = None)
  ∧ entries_for "Amber" (new_chars (latest_categories prev curr))
    = [("Amber", "• Amber: Lv20 C0 F2 — No weapon (Lv0 R0)")]
  ∧ entries_for "Amber" (new_chars (period_categories existed prev curr)) = []
  ∧ entries_for "Amber" (new_chars (period_categories ∅ prev curr))
    = [("Amber", "• Amber: Lv20 C0 F2 — No weapon (Lv0 R0)")]
  ∧ entries_for "Amber" (level_ups (latest_categories prev curr)) = [].
Proof.
  intros prev curr existed.
  assert (prev !! "Amber" = None ∨ curr !! "Amber" = None) as Hside
    by (left; vm_compute; reflexivity).
  split; [exact Hside|].
  pose proof (new_and_removed_characters existed prev curr "Amber" Hside)
    as (Hlatest & Hperiod & Hothers).
  pose proof (new_and_removed_characters ∅ prev curr "Amber" Hside)
    as (_ & Hperiod0 & _).
  destruct (Hothers LevelUps ltac:(discriminate)) as [Hlevel _].
  split; [rewrite Hlatest; vm_compute; reflexivity|].
  split; [rewrite Hperiod; vm_compute; reflexivity|].
  split; [rewrite Hperiod0; vm_compute; reflexivity|].
  exact Hlevel.
Defined.

Lemma weapon_change_supersedes_witness :
  let prev := batch_at sample_db "A" 1700000000 in
  let curr := batch_at sample_db "A" 1700003600 in
  let existed := existed_before_of sample_db "A" 1700000000 in
  prev !! "Kamisato Ayaka" = Some ayaka_before
  ∧ curr !! "Kamisato Ayaka" = Some ayaka_after
  ∧ weapon_entries "Kamisato Ayaka" ayaka_before ayaka_after
      (latest_categories prev curr)
  ∧ weapon_entries "Kamisato Ayaka" ayaka_before ayaka_after
      (period_categories existed prev curr).
Proof.
  intros prev curr existed.
  assert (prev !! "Kamisato Ayaka" = Some ayaka_before) as Hp
    by (vm_compute; reflexivity).
  assert (curr !! "Kamisato Ayaka" = Some ayaka_after) as Hc
    by (vm_compute; reflexivity).
  split; [exact Hp|]. split; [exact Hc|].
  exact (weapon_change_supersedes existed prev curr "Kamisato Ayaka"
           ayaka_before ayaka_after Hp Hc).
Defined.

Lemma level_friendship_constellation_witness :
  let prev := batch_at sample_db "A" 1700000000 in
  let curr := batch_at sample_db "A" 1700003600 in
  let existed := existed_before_of sample_db "A" 1700000000 in
  prev !! "Kamisato Ayaka" = Some ayaka_before
  ∧ curr !! "Kamisato Ayaka" = Some ayaka_after
  ∧ stat_entries "Kamisato Ayaka" ayaka_before ayaka_after
      (latest_categories prev curr)
  ∧ stat_entries "Kamisato Ayaka" ayaka_before ayaka_after
      (period_categories existed prev curr).
Proof.
  intros prev curr existed.
  assert (prev !! "Kamisato Ayaka" = Some ayaka_before) as Hp
    by (vm_compute; reflexivity).
  assert (curr !! "Kamisato Ayaka" = Some ayaka_after) as Hc
    by (vm_compute; reflexivity).
  split; [exact Hp|]. split; [exact Hc|].
  exact (level_friendship_constellation existed prev curr "Kamisato Ayaka"
           ayaka_before ayaka_after Hp Hc).
Defined.

Lemma not_due_leaves_everything_untouched_witness :
  -198840 ≤ 7 ≤ 198842
  ∧ last_run_of sample_db_run_5_days_ago (name sample_account) "Last 7 days"
    = Some (Stamp 1699575000)
  ∧ sample_now - 1699575000 * 1000000 < (7 - 1) * 86400 * 1000000
  ∧ run (post_period_summary (λ _, RespOk) sample_account "Last 7 days" 7
           sample_now) sample_db_run_5_days_ago
    = (Returned (),
       {| db := sample_db_run_5_days_ago;
          trace := [CreateRunsTableIfNotExists;
                    SelectLastRun (name sample_account) "Last 7 days"] |}).
Proof.
  assert (last_run_of sample_db_run_5_days_ago (name sample_account)
            "Last 7 days" = Some (Stamp 1699575000)) as Hrow
    by (vm_compute; reflexivity).
  assert (sample_now - 1699575000 * 1000000 < (7 - 1) * 86400 * 1000000)
    as Helapsed by (vm_compute; reflexivity).
  assert (-198840 ≤ 7 ≤ 198842) as Hdays by lia.
  split; [exact Hdays|]. split; [exact Hrow|]. split; [exact Helapsed|].
  exact (not_due_leaves_everything_untouched (λ _, RespOk) sample_account
           "Last 7 days" 7 sample_now sample_db_run_5_days_ago 1699575000
           Hdays Hrow Helapsed).
Defined.

Lemma due_without_two_snapshots_witness :
  let now_str := strftime_secs sample_now in
  let window_start := now_str - 7 * 86400 in
  let d' := with_run sample_db_one_snapshot
              (run_row_of (name sample_account) "Last 7 days" now_str) in
  four_digit_year now_str
  ∧ four_digit_year window_start
  ∧ due (last_run_of sample_db_one_snapshot (name sample_account)
           "Last 7 days") sample_now 7
  ∧ (length (snapshot_times_in sample_db_one_snapshot (name sample_account)
               window_start now_str) < 2)%nat
  ∧ run (post_period_summary (λ _, RespOk) sample_account "Last 7 days" 7
           sample_now) sample_db_one_snapshot
    = (Returned (),
       {| db := d';
          trace := [CreateRunsTableIfNotExists;
                    SelectLastRun (name sample_account) "Last 7 days";
                    SelectSnapshotTimes (name sample_account) window_start
                      now_str;
                    InsertRun (run_row_of (name sample_account) "Last 7 days"
                                 now_str)] |})
  ∧ last_run_of d' (name sample_account) "Last 7 days" = Some (Stamp now_str)
  ∧ character_stats_snapshots d'
    = character_stats_snapshots sample_db_one_snapshot.
Proof.
  intros now_str window_start d'.
  assert (four_digit_year now_str) as Hnow by (vm_compute; done).
  assert (four_digit_year window_start) as Hstart by (vm_compute; done).
  assert (due (last_run_of sample_db_one_snapshot (name sample_account)
                 "Last 7 days") sample_now 7) as Hdue
    by (vm_compute; exact I).
  assert (length (snapshot_times_in sample_db_one_snapshot
                    (name sample_account) window_start now_str) < 2)%nat
    as Hlen by (vm_compute; lia).
  split; [exact Hnow|]. split; [exact Hstart|]. split; [exact Hdue|].
  split; [exact Hlen|].
  exact (due_without_two_snapshots (λ _, RespOk) sample_account "Last 7 days"
           7 sample_now sample_db_one_snapshot Hnow Hstart Hdue Hlen).
Defined.

Lemma last_run_advances_after_post_witness :
  let now_str := strftime_secs sample_now in
  let window_start := now_str - 7 * 86400 in
  let snap_rows :=
    snapshot_times_in sample_db (name sample_account) window_start now_str in
  let d' := with_run sample_db
              (run_row_of (name sample_account) "Last 7 days" now_str) in
  four_digit_year now_str
  ∧ four_digit_year window_start
  ∧ due (last_run_of sample_db (name sample_account) "Last 7 days")
      sample_now 7
  ∧ (2 ≤ length snap_rows)%nat
  ∧ (∀ start_time end_time,
       head snap_rows = Some start_time → last snap_rows = Some end_time →
       nothing_to_report
         (period_changes_of sample_db (name sample_account) start_time
            end_time) = false)
  ∧ ∃ start_time end_time,
      head snap_rows = Some start_time
      ∧ last snap_rows = Some end_time
      ∧ let cs := period_changes_of sample_db (name sample_account)
                    start_time end_time in
        let lines := period_report_lines sample_account "Last 7 days"
                       start_time end_time cs in
        run (post_period_summary (λ _, PostRaises) sample_account
               "Last 7 days" 7 sample_now) sample_db
        = (Returned (),
           {| db := d';
              trace :=
                [CreateRunsTableIfNotExists;
                 SelectLastRun (name sample_account) "Last 7 days";
                 SelectSnapshotTimes (name sample_account) window_start
                   now_str;
                 SelectBatch (name sample_account) start_time;
                 SelectBatch (name sample_account) end_time;
                 SelectExistedBefore (name sample_account) start_time;
                 Post lines]
                ++ warnings PostRaises
                ++ [InsertRun (run_row_of (name sample_account) "Last 7 days"
                                 now_str)] |})
        ∧ last_run_of d' (name sample_account) "Last 7 days"
          = Some (Stamp now_str)
        ∧ (∀ sink' later,
             -198840 ≤ 7 ≤ 198842 →
             later - now_str * 1000000 < (7 - 1) * 86400 * 1000000 →
             run (post_period_summary sink' sample_account "Last 7 days" 7
                    later) d'
             = (Returned (),
                {| db := d';
                   trace := [CreateRunsTableIfNotExists;
                             SelectLastRun (name sample_account)
                               "Last 7 days"] |}))
        ∧ ∀ later,
            (7 - 1) * 86400 * 1000000 ≤ later - now_str * 1000000 →
            due (last_run_of d' (name sample_account) "Last 7 days") later 7.
Proof.
  intros now_str window_start snap_rows d'.
  assert (four_digit_year now_str) as Hnow by (vm_compute; done).
  assert (four_digit_year window_start) as Hstart by (vm_compute; done).
  assert (due (last_run_of sample_db (name sample_account) "Last 7 days")
            sample_now 7) as Hdue
    by (vm_compute; exact I).
  assert (2 ≤ length snap_rows)%nat as Hlen by (vm_compute; lia).
  assert (∀ start_time end_time,
            head snap_rows = Some start_time →
            last snap_rows = Some end_time →
            nothing_to_report
              (period_changes_of sample_db (name sample_account) start_time
                 end_time) = false) as Hcs.
  { intros start_time end_time Hhead Hlast.
    vm_compute in Hhead, Hlast.
    injection Hhead as <-. injection Hlast as <-.
    vm_compute. reflexivity. }
  split; [exact Hnow|]. split; [exact Hstart|]. split; [exact Hdue|].
  split; [exact Hlen|]. split; [exact Hcs|].
  exact (last_run_advances_after_post (λ _, PostRaises) sample_account
           "Last 7 days" 7 sample_now sample_db Hnow Hstart Hdue Hlen Hcs).
Defined.

(** Kamisato Ayaka from level 80, constellation 0 and refinement 1 to
    level 90, constellation 1 and refinement 2, with the same weapon and
    friendship: one level-up, one constellation change and one
    refinement change, and nothing else. *)
Example ayaka_scenario :
  let cs := latest_changes {[ "Kamisato Ayaka" := ayaka_before ]}
                           {[ "Kamisato Ayaka" := ayaka_after ]} in
  lines_of (level_ups (cats cs)) = ["• Kamisato Ayaka: Lv80 → Lv90"]
  ∧ lines_of (constellation_changes (cats cs))
    = ["• Kamisato Ayaka: C0 → C1"]
  ∧ lines_of (weapon_refinement_changes (cats cs))
    = ["• Kamisato Ayaka (Mistsplitter): R1 → R2"]
  ∧ new_chars (cats cs) = []
  ∧ friendship_ups (cats cs) = []
  ∧ weapon_changes (cats cs) = []
  ∧ weapon_level_changes (cats cs) = []
  ∧ total_line cs = None.
Proof. vm_compute. repeat split. Qed.

(** A new weapon of a higher level and refinement gives the weapon
    change alone; a character who left gives the totals line alone. *)
Example weapon_swap_scenario :
  let swapped :=
    {| level := 90; friendship := 6; constellation := 1;
       weapon_name := "Amenoma Kageuchi"; weapon_level := 80;
       weapon_refinement := 5 |} in
  let cs := latest_changes
              {[ "Kamisato Ayaka" := ayaka_after ]}
              {[ "Kamisato Ayaka" := swapped ]} in
  let gone := latest_changes
                (<[ "Amber" := amber ]> {[ "Kamisato Ayaka" := ayaka_after ]})
                {[ "Kamisato Ayaka" := ayaka_after ]} in
  lines_of (weapon_changes (cats cs))
  = ["• Kamisato Ayaka: Mistsplitter → Amenoma Kageuchi (Lv80 R5)"]
  ∧ weapon_level_changes (cats cs) = []
  ∧ weapon_refinement_changes (cats cs) = []
  ∧ cats gone = no_categories
  ∧ total_line gone = Some "• Characters: 2 → 1 (-1)".
Proof. vm_compute. repeat split. Qed.

Example format_timer_examples :
  _format_timer (Some 0) (Some 160) (Some 160) = "Full"
  ∧ _format_timer (Some 5000) (Some 200) (Some 160) = "Full"
  ∧ _format_timer None (Some 10) (Some 160) = "Unknown"
  ∧ _format_timer (Some (-5)) (Some 10) (Some 160) = "Full"
  ∧ _format_timer (Some 30) (Some 10) (Some 160) = "in 0m"
  ∧ _format_timer (Some 3599) None None = "in 59m"
  ∧ _format_timer (Some 7200) (Some 10) (Some 160) = "in 2h"
  ∧ _format_timer (Some 7260) (Some 10) None = "in 2h1m".
Proof. vm_compute. repeat split. Qed.

(** * Further properties *)

(** ** [_format_duration_short] *)

Lemma append_assoc (a b c : string) : (a +:+ b) +:+ c = a +:+ b +:+ c.
Proof.
  induction a as [|x a IH]; [done|].
  change (String x ((a +:+ b) +:+ c) = String x (a +:+ b +:+ c)).
  by rewrite IH.
Qed.

(** X1.  The short duration text is "?" for unknown seconds and "ready"
    for zero or negative seconds.  For positive seconds it is "less than
    1m" below one minute; otherwise it shows the hours with an "h" and
    the minutes with an "m", separated by a space, leaving out the one
    that is zero. *)
Theorem format_duration_short_cases :
  _format_duration_short None = "?"
  ∧ (∀ s, s ≤ 0 → _format_duration_short (Some s) = "ready")
  ∧ (∀ s, 0 < s < 60 → _format_duration_short (Some s) = "less than 1m")
  ∧ (∀ s, 60 ≤ s →
     let hours := s `div` 3600 in
     let minutes := (s `mod` 3600) `div` 60 in
     0 ≤ hours ∧ 0 ≤ minutes < 60 ∧ (0 < hours ∨ 0 < minutes)
     ∧ _format_duration_short (Some s)
       = if decide (hours = 0) then pretty minutes +:+ "m"
         else if decide (minutes = 0) then pretty hours +:+ "h"
         else pretty hours +:+ "h" +:+ " " +:+ pretty minutes +:+ "m").
Proof.
  split; [done|]. split; [|split].
  - intros s Hs. unfold _format_duration_short.
    by destruct (decide (s ≤ 0)).
  - intros s Hs. unfold _format_duration_short.
    destruct (decide (s ≤ 0)); [exfalso; lia|].
    rewrite (Z.mod_small s 3600), (Z.div_small s 3600), (Z.div_small s 60)
      by lia.
    done.
  - intros s Hs.
    set (hours := s `div` 3600). set (minutes := (s `mod` 3600) `div` 60).
    assert (0 ≤ hours) by (apply Z.div_pos; lia).
    pose proof (Z.mod_pos_bound s 3600 ltac:(lia)) as Hmod.
    assert (0 ≤ minutes < 60) as Hminutes.
    { split; [apply Z.div_pos; lia|apply Z.div_lt_upper_bound; lia]. }
    assert (0 < hours ∨ 0 < minutes) as Hsome.
    { destruct (decide (0 < hours)) as [|Hh]; [by left|right].
      assert (hours = 0) as Hh0 by lia.
      pose proof (Z.div_mod s 3600 ltac:(lia)) as Hdm. fold hours in Hdm.
      unfold minutes. apply Z.div_str_pos. lia. }
    split; [done|]. split; [done|]. split; [done|].
    unfold _format_duration_short. destruct (decide (s ≤ 0)); [exfalso; lia|].
    fold hours minutes.
    repeat case_decide; simpl; rewrite ?append_assoc; try done; exfalso; lia.
Qed.

(** ** [_load_character_batch] *)

Lemma last_cons_filter {A} (P : A → Prop) `{∀ x, Decision (P x)} x l :
  last (filter P (x :: l))
  = match last (filter P l) with
    | Some y => Some y
    | None => if decide (P x) then Some x else None
    end.
Proof.
  rewrite filter_cons. case_decide; [|by destruct (last (filter P l))].
  destruct (filter P l) as [|y l'] eqn:Hl; [done|].
  rewrite last_cons. by destruct (last (y :: l')).
Qed.

Lemma foldl_insert_lookup (rows : list snapshot_row)
    (batch : gmap string CharacterRecord) who :
  foldl (λ batch r, <[character_name r := batch_of_row r]> batch) batch rows
    !! who
  = match last (filter (λ r, character_name r = who) rows) with
    | Some r => Some (batch_of_row r)
    | None => batch !! who
    end.
Proof.
  revert batch. induction rows as [|r rows IH]; intros batch; [done|].
  simpl foldl. rewrite IH, last_cons_filter.
  destruct (last (filter _ rows)); [done|].
  case_decide as Hname.
  - subst who. by rewrite lookup_insert_eq.
  - by rewrite lookup_insert_ne.
Qed.

(** X2.  The mapping loaded for an account and a time holds, under each
    character name, the values of the last row of that account, time and
    name, with 0 for a NULL number and the empty text for a NULL weapon
    name; a name with no such row is absent from the mapping. *)
Theorem load_character_batch_lookup
    (table : list snapshot_row) (account : string) (taken_at : Z)
    (who : string) :
  _load_character_batch table account taken_at !! who
  = batch_of_row
      <$> last (filter (λ r, character_name r = who
                             ∧ account_name r = account
                             ∧ taken_at_utc r = taken_at) table).
Proof.
  unfold _load_character_batch, select_batch_rows.
  rewrite foldl_insert_lookup, lookup_empty, list_filter_filter.
  by destruct (last _).
Qed.

(** ** [store_character_stats_snapshots] *)

Lemma insert_characters_appends characters table now_utc account table' :
  insert_characters table now_utc account characters = Inserted table' →
  table' = table ++ stored_rows now_utc account characters.
Proof.
  revert table. induction characters as [|c rest IH]; intros table; simpl.
  - intros [= <-]. by rewrite app_nil_r.
  - unfold stored_rows. simpl. destruct (decide (binds c)); [|done].
    destruct (c_id c), (c_name c) as [who|]; try done.
    intros Hrest. apply IH in Hrest as ->. simpl.
    by rewrite <- (assoc_L (++)).
Qed.

Lemma stored_rows_last now_utc account characters who :
  last (filter (λ r, character_name r = who
                     ∧ account_name r = account ∧ taken_at_utc r = now_utc)
               (stored_rows now_utc account characters))
  = (λ c, row_of_character now_utc account who c)
      <$> last_named who characters.
Proof.
  unfold last_named, stored_rows.
  induction characters as [|c rest IH]; [done|].
  rewrite (last_cons_filter (λ c, c_name c = Some who)).
  unfold omap in IH |- *.
  simpl list_omap. destruct (c_name c) as [who'|] eqn:Hname; simpl.
  - rewrite last_cons_filter, IH.
    destruct (last (filter _ rest)); [done|]. simpl.
    destruct (decide (who' = who)) as [->|Hne].
    + by rewrite !decide_True.
    + rewrite !decide_False; [done|congruence|by intros [? _]].
  - rewrite IH. by destruct (last (filter _ rest)).
Qed.

Lemma stored_rows_elsewhere now_utc account characters account' taken_at :
  (account', taken_at) ≠ (account, now_utc) →
  select_batch_rows (stored_rows now_utc account characters) account' taken_at
  = [].
Proof.
  intros Hne. unfold select_batch_rows, stored_rows.
  induction characters as [|c rest IH]; [done|].
  simpl omap. destruct (c_name c); simpl; [|done].
  rewrite filter_cons_False; [done|]. simpl. intros [<- <-]. done.
Qed.

Lemma batch_of_stored_row now_utc account who c :
  batch_of_row (row_of_character now_utc account who c)
  = record_of_character c.
Proof. done. Qed.

(** X3.  When [store_character_stats_snapshots] returns, it returns the
    current second and has only appended rows.  The mapping then loaded
    for the account at that second holds, under each stored name, the
    values of the last stored character of that name, with 0 and the
    empty text for the values that were absent; names not stored keep
    what rows already at that second gave them.  The mappings of every
    other account or time are unchanged, and so are the summary runs. *)
Theorem store_then_load
    (d : database) (account : Account) (characters : list character_dump)
    (now : Z) (d' : database) (t : Z) :
  store_character_stats_snapshots d account characters now = Stored d' t →
  t = strftime_secs now
  ∧ character_summary_runs d' = character_summary_runs d
  ∧ character_stats_snapshots d'
    = character_stats_snapshots d ++ stored_rows t (name account) characters
  ∧ (∀ who,
       batch_at d' (name account) t !! who
       = match last_named who characters with
         | Some c => Some (record_of_character c)
         | None => batch_at d (name account) t !! who
         end)
  ∧ (∀ account' taken_at,
       (account', taken_at) ≠ (name account, t) →
       batch_at d' account' taken_at = batch_at d account' taken_at).
Proof.
  unfold store_character_stats_snapshots.
  destruct (insert_characters _ _ _ _) as [table| |] eqn:Hins; [|done..].
  intros [= <- <-]. apply insert_characters_appends in Hins as ->.
  split; [done|]. split; [done|]. split; [done|]. split.
  - intros who. unfold batch_at. simpl.
    rewrite !load_character_batch_lookup, filter_app, last_app.
    rewrite stored_rows_last.
    destruct (last_named who characters) as [c|]; simpl; [|done].
    by rewrite batch_of_stored_row.
  - intros account' taken_at Hne. unfold batch_at, _load_character_batch.
    simpl. unfold select_batch_rows at 1. rewrite filter_app.
    fold (select_batch_rows (character_stats_snapshots d) account' taken_at).
    fold (select_batch_rows
            (stored_rows (strftime_secs now) (name account) characters)
            account' taken_at).
    by rewrite stored_rows_elsewhere, app_nil_r.
Qed.

Lemma insert_characters_all characters table now_utc account :
  Forall insertable characters →
  ∃ table', insert_characters table now_utc account characters
            = Inserted table'.
Proof.
  intros Hall. revert table.
  induction Hall as [|c rest (Hb & [i Hi] & [who Hw]) _ IH]; intros table;
    simpl; [by eexists|].
  rewrite decide_True, Hi, Hw by done. apply IH.
Qed.

Lemma insert_characters_skip before rest table now_utc account :
  Forall insertable before →
  ∃ table', insert_characters table now_utc account (before ++ rest)
            = insert_characters table' now_utc account rest.
Proof.
  intros Hall. revert table.
  induction Hall as [|c before (Hb & [i Hi] & [who Hw]) _ IH]; intros table;
    simpl; [by eexists|].
  rewrite decide_True, Hi, Hw by done. apply IH.
Qed.

(** The outcome of the loop is decided by the first character whose
    INSERT does not go through. *)
Lemma insert_characters_cases characters table now_utc account :
  match insert_characters table now_utc account characters with
  | Inserted _ => Forall insertable characters
  | NotNullFailed =>
      ∃ before c after,
        characters = before ++ c :: after
        ∧ Forall insertable before
        ∧ binds c ∧ (c_id c = None ∨ c_name c = None)
  | BindOverflow =>
      ∃ before c after,
        characters = before ++ c :: after
        ∧ Forall insertable before ∧ ¬ binds c
  end.
Proof.
  revert table. induction characters as [|c rest IH]; intros table; simpl;
    [done|].
  destruct (decide (binds c)) as [Hb|Hb];
    [|by exists [], c, rest].
  destruct (c_id c) as [i|] eqn:Hi;
    [|exists [], c, rest; by eauto].
  destruct (c_name c) as [who|] eqn:Hw;
    [|exists [], c, rest; by eauto].
  assert (insertable c) as Hc by (unfold insertable; rewrite Hi, Hw; eauto).
  specialize (IH (table ++ [row_of_character now_utc account who c])).
  destruct (insert_characters _ _ _ rest).
  - by constructor.
  - destruct IH as (before & c' & after & -> & ? & ? & ?).
    exists (c :: before), c', after. split; [done|].
    split; [by constructor|done].
  - destruct IH as (before & c' & after & -> & ? & ?).
    exists (c :: before), c', after. split; [done|].
    split; [by constructor|done].
Qed.

(** X4.  [store_character_stats_snapshots] goes through the characters
    in order and stops at the first whose INSERT fails.  It returns iff
    every character has an [id] and a [name] and integers of at most 64
    bits, the empty list included.  It raises [sqlite3.IntegrityError]
    iff the first character that fails has integers of at most 64 bits
    and no [id] or no [name]: when the integers of all characters are of
    at most 64 bits, exactly when one of the characters has no [id] or
    no [name].  It raises [OverflowError] iff the first character that
    fails has an integer beyond 64 bits. *)
Theorem store_raises_iff
    (d : database) (account : Account) (characters : list character_dump)
    (now : Z) :
  ((∃ d' t,
      store_character_stats_snapshots d account characters now = Stored d' t)
   ↔ ∀ c, c ∈ characters →
          binds c ∧ is_Some (c_id c) ∧ is_Some (c_name c))
  ∧ (store_character_stats_snapshots d account characters now = IntegrityError
     ↔ ∃ before c after,
         characters = before ++ c :: after
         ∧ Forall insertable before
         ∧ binds c ∧ (c_id c = None ∨ c_name c = None))
  ∧ (store_character_stats_snapshots d account characters now
     = StoreOverflowError
     ↔ ∃ before c after,
         characters = before ++ c :: after
         ∧ Forall insertable before ∧ ¬ binds c)
  ∧ ((∀ c, c ∈ characters → binds c) →
     (store_character_stats_snapshots d account characters now
      = IntegrityError
      ↔ ∃ c, c ∈ characters ∧ (c_id c = None ∨ c_name c = None)))
  ∧ (store_character_stats_snapshots d account [] now
     = Stored d (strftime_secs now)).
Proof.
  assert (∀ before c after,
            characters = before ++ c :: after → Forall insertable before →
            ∃ table',
              insert_characters (character_stats_snapshots d)
                (strftime_secs now) (name account) characters
              = insert_characters table' (strftime_secs now) (name account)
                  (c :: after)) as Hskip.
  { intros before c after -> Hbefore.
    apply insert_characters_skip, Hbefore. }
  pose proof (insert_characters_cases characters
                (character_stats_snapshots d) (strftime_secs now)
                (name account)) as Hcases.
  unfold store_character_stats_snapshots.
  split; [|split; [|split; [|split]]].
  - split.
    + intros (d' & t & Hstored).
      destruct (insert_characters _ _ _ characters); [|done..].
      by apply Forall_forall.
    + intros Hall. apply Forall_forall in Hall.
      destruct (insert_characters_all characters
                  (character_stats_snapshots d) (strftime_secs now)
                  (name account) Hall) as [table' ->].
      by do 2 eexists.
  - split.
    + by destruct (insert_characters _ _ _ characters).
    + intros (before & c & after & Hsplit & Hbefore & Hb & Hnull).
      destruct (Hskip before c after Hsplit Hbefore) as [table' ->].
      simpl. rewrite decide_True by done.
      by destruct Hnull as [-> | ->]; [|destruct (c_id c)].
  - split.
    + by destruct (insert_characters _ _ _ characters).
    + intros (before & c & after & Hsplit & Hbefore & Hb).
      destruct (Hskip before c after Hsplit Hbefore) as [table' ->].
      simpl. by rewrite decide_False.
  - intros Hbind. split.
    + destruct (insert_characters _ _ _ characters); try done.
      destruct Hcases as (before & c & after & -> & _ & _ & Hnull).
      intros _. exists c. split; [|done].
      apply elem_of_app. right. apply list_elem_of_here.
    + intros (c & Hin & Hnull).
      destruct (insert_characters _ _ _ characters); [|done|].
      * exfalso. apply (proj1 (Forall_forall _ _)) with (x := c) in Hcases;
          [|done].
        destruct Hcases as (_ & [i Hi] & [who Hw]).
        destruct Hnull; congruence.
      * exfalso. destruct Hcases as (before & c' & after & -> & _ & Hb).
        apply Hb, Hbind. apply elem_of_app. right. apply list_elem_of_here.
  - simpl. by destruct d.
Qed.

(** A level of 2^63 cannot be bound: nothing is stored. *)
Example store_overflow_example :
  store_character_stats_snapshots sample_db sample_account
    [ {| c_id := Some 10000006; c_name := Some "Lisa"; c_rarity := Some 4;
         c_level := Some 9223372036854775808; c_friendship := Some 3;
         c_constellation := Some 0; c_weapon := None |} ]
    sample_now
  = StoreOverflowError.
Proof. vm_compute. reflexivity. Qed.

(** ** The snapshot times the two functions select *)

Lemma elem_of_distinct_ascending l x : x ∈ distinct_ascending l ↔ x ∈ l.
Proof.
  unfold distinct_ascending.
  by rewrite merge_sort_Permutation, elem_of_remove_dups.
Qed.

Lemma strictly_sorted (l : list Z) :
  StronglySorted Z.le l → NoDup l → StronglySorted Z.lt l.
Proof.
  induction 1 as [|x l Hl IH Hx]; intros Hnd; [constructor|].
  apply NoDup_cons in Hnd as [Hnot Hnd]. constructor; [by apply IH|].
  apply Forall_forall. intros y Hy.
  rewrite Forall_forall in Hx. specialize (Hx y Hy).
  assert (x ≠ y) by (by intros ->). lia.
Qed.

Lemma distinct_ascending_sorted l : StronglySorted Z.lt (distinct_ascending l).
Proof.
  apply strictly_sorted.
  - apply (StronglySorted_merge_sort Z.le); apply _.
  - unfold distinct_ascending. rewrite merge_sort_Permutation.
    apply NoDup_remove_dups.
Qed.

Lemma sorted_last_greatest (l : list Z) x :
  StronglySorted Z.lt l → last l = Some x → ∀ y, y ∈ l → y ≤ x.
Proof.
  intros Hl Hlast y Hy. apply last_Some in Hlast as [l' ->].
  apply elem_of_app in Hy as [Hy|Hy%list_elem_of_singleton]; [|lia].
  pose proof (StronglySorted_app_1_elem_of _ _ _ y x Hl Hy) as Hlt.
  specialize (Hlt ltac:(left)). lia.
Qed.

Lemma sorted_head_least (l : list Z) x :
  StronglySorted Z.lt l → head l = Some x → ∀ y, y ∈ l → x ≤ y.
Proof.
  intros Hl Hhead y Hy. destruct l as [|x' l]; [done|].
  injection Hhead as ->. apply StronglySorted_inv in Hl as [_ Hx].
  apply elem_of_cons in Hy as [->|Hy]; [lia|].
  rewrite Forall_forall in Hx. specialize (Hx y Hy). lia.
Qed.

Lemma sorted_head_before_last (l : list Z) a b :
  StronglySorted Z.lt l → (2 ≤ length l)%nat →
  head l = Some a → last l = Some b → a < b.
Proof.
  intros Hl Hlen Hhead Hlast.
  destruct l as [|a' [|c l]]; simpl in Hlen; try lia.
  injection Hhead as ->. apply StronglySorted_inv in Hl as [_ Ha].
  rewrite Forall_forall in Ha. apply Ha.
  rewrite last_cons in Hlast.
  destruct (last (c :: l)) as [b'|] eqn:Hb; [|by apply last_None in Hb].
  injection Hlast as ->. apply last_Some in Hb as [l' Hb].
  rewrite Hb. apply elem_of_app. right. left.
Qed.

(** X5.  The time [maybe_post_character_diff] compares against is the
    greatest snapshot time of the account strictly before the given
    time; there is none exactly when the account has no earlier
    snapshot. *)
Theorem previous_time_is_latest_earlier
    (d : database) (account : string) (before : Z) :
  match previous_time_of d account before with
  | Some t =>
      t < before
      ∧ (∃ r, r ∈ character_stats_snapshots d
              ∧ account_name r = account ∧ taken_at_utc r = t)
      ∧ ∀ r, r ∈ character_stats_snapshots d → account_name r = account →
             taken_at_utc r < before → taken_at_utc r ≤ t
  | None =>
      ∀ r, r ∈ character_stats_snapshots d → account_name r = account →
           before ≤ taken_at_utc r
  end.
Proof.
  unfold previous_time_of.
  set (times := taken_at_utc <$> filter _ (character_stats_snapshots d)).
  assert (∀ t, t ∈ times
               ↔ ∃ r, r ∈ character_stats_snapshots d
                      ∧ account_name r = account ∧ taken_at_utc r = t
                      ∧ t < before) as Htimes.
  { intros t. unfold times. rewrite list_elem_of_fmap. split.
    - intros (r & -> & Hr). apply list_elem_of_filter in Hr as [[? ?] ?].
      eauto 10.
    - intros (r & Hr & Ha & <- & Hlt). exists r. split; [done|].
      by apply list_elem_of_filter. }
  destruct (last (distinct_ascending times)) as [t|] eqn:Hlast.
  - assert (t ∈ times) as Ht.
    { apply elem_of_distinct_ascending. apply last_Some in Hlast as [l' ->].
      apply elem_of_app. right. left. }
    apply Htimes in Ht as (r & Hr & Ha & Ht & Hlt).
    split; [done|]. split; [by eauto|].
    intros r' Hr' Ha' Hlt'.
    apply (sorted_last_greatest _ _ (distinct_ascending_sorted times) Hlast).
    apply elem_of_distinct_ascending, Htimes. eauto 10.
  - apply last_None in Hlast. intros r Hr Ha.
    destruct (decide (taken_at_utc r < before)) as [Hlt|]; [|lia].
    assert (taken_at_utc r ∈ distinct_ascending times) as Hin.
    { apply elem_of_distinct_ascending, Htimes. eauto 10. }
    rewrite Hlast in Hin. by apply elem_of_nil in Hin.
Qed.

Lemma snapshot_times_in_sorted d account window_start window_end :
  StronglySorted Z.lt (snapshot_times_in d account window_start window_end).
Proof. apply distinct_ascending_sorted. Qed.

Lemma elem_of_snapshot_times_in d account window_start window_end t :
  t ∈ snapshot_times_in d account window_start window_end
  ↔ window_start ≤ t ≤ window_end
    ∧ ∃ r, r ∈ character_stats_snapshots d
           ∧ account_name r = account ∧ taken_at_utc r = t.
Proof.
  unfold snapshot_times_in.
  rewrite elem_of_distinct_ascending, list_elem_of_fmap. split.
  - intros (r & -> & Hr). apply list_elem_of_filter in Hr as [(? & ? & ?) ?].
    eauto 10.
  - intros ([? ?] & r & Hr & Ha & <-). exists r. split; [done|].
    by apply list_elem_of_filter.
Qed.

(** X6.  For a window whose two bounds are in the years 1000 to 9999,
    the snapshot times [post_period_summary] selects are the times of
    the account's rows that lie in the window, each once, in strictly
    ascending order. *)
Theorem snapshot_times_ascending_and_complete
    (d : database) (account : string) (window_start window_end : Z) :
  four_digit_year window_start →
  four_digit_year window_end →
  StronglySorted Z.lt (snapshot_times_in d account window_start window_end)
  ∧ ∀ t, t ∈ snapshot_times_in d account window_start window_end
         ↔ window_start ≤ t ≤ window_end
           ∧ ∃ r, r ∈ character_stats_snapshots d
                  ∧ account_name r = account ∧ taken_at_utc r = t.
Proof.
  intros _ _. split; [apply snapshot_times_in_sorted|].
  intros t. apply elem_of_snapshot_times_in.
Qed.

(** ** Every way [post_period_summary] can go *)

Lemma posts_warnings r : posts (warnings r) = [].
Proof. by destruct r. Qed.

Lemma inserts_warnings r : inserts (warnings r) = [].
Proof. by destruct r. Qed.

Lemma minus_days_cases now days w :
  (window_overflows now days
   ∧ minus_days now days w = (Raised OverflowError, w))
  ∨ (¬ window_overflows now days
     ∧ minus_days now days w = (Returned (now - days * 86400 * 1000000), w)).
Proof.
  unfold window_overflows, minus_days, raise.
  repeat case_decide; [left|right|left]; (split; [tauto|done]).
Qed.

(** An evaluation is suppressed and does nothing, or it is due and the
    start of the window overflows, or it is due and inserts the record
    of the current second after at most one post. *)
Lemma period_run_cases sink account label days_back now_utc d :
  let now_str := strftime_secs now_utc in
  let row := run_row_of (name account) label now_str in
  let res := run (post_period_summary sink account label days_back now_utc) d in
  (suppressed (last_run_of d (name account) label) now_utc days_back = true
   ∧ res = (Returned (),
            {| db := d;
               trace := [CreateRunsTableIfNotExists;
                         SelectLastRun (name account) label] |}))
  ∨ (suppressed (last_run_of d (name account) label) now_utc days_back = false
     ∧ window_overflows now_utc days_back
     ∧ res = (Raised OverflowError,
              {| db := d;
                 trace := [CreateRunsTableIfNotExists;
                           SelectLastRun (name account) label] |}))
  ∨ (suppressed (last_run_of d (name account) label) now_utc days_back = false
     ∧ ¬ window_overflows now_utc days_back
     ∧ ∃ t, res = (Returned (), {| db := with_run d row; trace := t |})
            ∧ inserts t = [row]
            ∧ (length (posts t) ≤ 1)%nat
            ∧ last t = Some (InsertRun row)).
Proof.
  intros now_str row res. subst res.
  destruct (suppressed _ _ _) eqn:Hs.
  { left. split; [done|]. by apply period_suppressed. }
  right. unfold post_period_summary. run_monad. rewrite Hs.
  destruct (minus_days_cases now_utc days_back
              {| db := d;
                 trace := [CreateRunsTableIfNotExists;
                           SelectLastRun (name account) label] |})
    as [[Hover ->]|[Hok ->]].
  { left. done. }
  right. split; [done|]. split; [done|].
  rewrite strftime_secs_minus_days. fold now_str.
  set (snap_rows := snapshot_times_in _ _ _ _).
  case_decide as Hlen.
  { eexists. split; [reflexivity|]. repeat split; simpl; lia. }
  destruct (head snap_rows) as [start_time|] eqn:Hhead;
    [|destruct snap_rows; simpl in *; [lia|done]].
  destruct (last snap_rows) as [end_time|] eqn:Hlast;
    [|apply last_None in Hlast; rewrite Hlast in Hlen; simpl in Hlen; lia].
  cbn [db trace].
  destruct (nothing_to_report _).
  { eexists. split; [reflexivity|]. repeat split; simpl; lia. }
  destruct (sink _);
    (eexists; split; [reflexivity|]; repeat split; simpl; lia).
Qed.

(** X7.  Whatever it is given, [post_period_summary] leaves the snapshot
    rows as they are and posts at most once.  Either it changes nothing
    in the database and inserts nothing, or it returns having appended
    exactly one record, that of the account, the label and the current
    second, as its last effect.  It raises only [OverflowError], only
    when the start of the window cannot be computed, and then has posted
    and inserted nothing; for a [days_back] from -198840 to 198842,
    where the test on the elapsed time is the one the source makes in
    floats, the evaluation that raises is not a suppressed one. *)
Theorem period_summary_effects
    (sink : list string → post_response) (account : Account)
    (label : string) (days_back now_utc : Z) (d : database) :
  let row := run_row_of (name account) label (strftime_secs now_utc) in
  let res := run (post_period_summary sink account label days_back now_utc) d in
  character_stats_snapshots (db res.2) = character_stats_snapshots d
  ∧ (length (posts (trace res.2)) ≤ 1)%nat
  ∧ ((db res.2 = d ∧ inserts (trace res.2) = [])
     ∨ (res.1 = Returned () ∧ db res.2 = with_run d row
        ∧ inserts (trace res.2) = [row]
        ∧ last (trace res.2) = Some (InsertRun row)))
  ∧ ∀ e, res.1 = Raised e →
         e = OverflowError
         ∧ window_overflows now_utc days_back
         ∧ (-198840 ≤ days_back ≤ 198842 →
            suppressed (last_run_of d (name account) label) now_utc days_back
            = false)
         ∧ db res.2 = d ∧ posts (trace res.2) = []
         ∧ inserts (trace res.2) = [].
Proof.
  intros row res.
  destruct (period_run_cases sink account label days_back now_utc d)
    as [[Hs Hres]|[(Hs & Hover & Hres)|(Hs & Hok & t & Hres & Hins & Hposts
                                        & Hlast)]];
    fold res in Hres; rewrite Hres; simpl.
  - split; [done|]. split; [lia|]. split; [by left|]. done.
  - split; [done|]. split; [lia|]. split; [by left|].
    intros e [= <-]. done.
  - split; [done|]. split; [done|]. split; [by right|]. done.
Qed.

(** X8.  For a period of one day or more, the time of the latest record
    of an account and label never moves backward: if it parsed to some
    second before the evaluation, then after the evaluation, however it
    went, it parses to the same or a later second. *)
Theorem last_run_never_moves_backward
    (sink : list string → post_response) (account : Account)
    (label : string) (days_back now_utc : Z) (d : database) (last_run : Z) :
  1 ≤ days_back →
  last_run_of d (name account) label = Some (Stamp last_run) →
  ∃ last_run',
    last_run_of (db (run (post_period_summary sink account label days_back
                            now_utc) d).2) (name account) label
    = Some (Stamp last_run')
    ∧ last_run ≤ last_run'.
Proof.
  intros Hdays Hrow.
  destruct (period_run_cases sink account label days_back now_utc d)
    as [[Hs Hres]|[(Hs & Hover & Hres)|(Hs & Hok & t & Hres & _)]];
    rewrite Hres; simpl.
  - exists last_run. split; [done|lia].
  - exists last_run. split; [done|lia].
  - exists (strftime_secs now_utc). split; [apply last_run_of_with_run|].
    rewrite Hrow in Hs. simpl in Hs.
    apply bool_decide_eq_false in Hs. unfold not_yet_due in Hs.
    unfold strftime_secs. apply Z.div_le_lower_bound; [lia|]. nia.
Qed.

(** X9.  Every due evaluation whose current second and window start
    have four-digit years returns with the record of the current second
    as the latest record of the account and label: with fewer than two
    snapshots in the window, with nothing to report, and after a post,
    for any answer of the sink.  For a [days_back] from -198840 to
    198842, an evaluation of the same period less than [days_back - 1]
    days after that second then changes nothing. *)
Theorem due_evaluation_always_advances
    (sink : list string → post_response) (account : Account)
    (label : string) (days_back now_utc : Z) (d : database) :
  let now_str := strftime_secs now_utc in
  let res := run (post_period_summary sink account label days_back now_utc) d in
  four_digit_year now_str →
  four_digit_year (now_str - days_back * 86400) →
  due (last_run_of d (name account) label) now_utc days_back →
  res.1 = Returned ()
  ∧ db res.2 = with_run d (run_row_of (name account) label now_str)
  ∧ last_run_of (db res.2) (name account) label = Some (Stamp now_str)
  ∧ ∀ sink' later,
      -198840 ≤ days_back ≤ 198842 →
      later - now_str * 1000000 < (days_back - 1) * 86400 * 1000000 →
      run (post_period_summary sink' account label days_back later) (db res.2)
      = (Returned (),
         {| db := db res.2;
            trace := [CreateRunsTableIfNotExists;
                      SelectLastRun (name account) label] |}).
Proof.
  intros now_str res Hnow Hstart Hdue.
  apply due_not_suppressed in Hdue.
  destruct (period_run_cases sink account label days_back now_utc d)
    as [[Hs Hres]|[(Hs & Hover & Hres)|(Hs & Hok & t & Hres & _)]].
  - congruence.
  - exfalso.
    pose proof (minus_days_returns now_utc days_back
                  {| db := d; trace := [] |} Hnow Hstart) as Hret.
    destruct (minus_days_cases now_utc days_back {| db := d; trace := [] |})
      as [[_ Hraise]|[Hno _]]; [congruence|done].
  - fold res in Hres. rewrite Hres. simpl. fold now_str.
    split; [done|]. split; [done|].
    split; [apply last_run_of_with_run|].
    intros sink' later _ Hlater. apply period_suppressed.
    apply suppressed_true_iff. exists now_str.
    split; [apply last_run_of_with_run|done].
Qed.

Lemma period_post_endpoints sink account label days_back now_utc d lines :
  let now_str := strftime_secs now_utc in
  let snap_rows :=
    snapshot_times_in d (name account) (now_str - days_back * 86400) now_str in
  Post lines
    ∈ trace (run (post_period_summary sink account label days_back now_utc) d).2 →
  (2 ≤ length snap_rows)%nat
  ∧ ∃ start_time end_time,
      head snap_rows = Some start_time
      ∧ last snap_rows = Some end_time
      ∧ lines
        = period_report_lines account label start_time end_time
            (period_changes_of d (name account) start_time end_time).
Proof.
  intros now_str snap_rows.
  unfold post_period_summary. run_monad.
  destruct (suppressed _ _ _); simpl; [no_post_here|].
  unfold minus_days, raise.
  repeat case_decide; simpl; try no_post_here.
  rewrite strftime_secs_minus_days. fold now_str snap_rows.
  case_decide as Hlen; simpl; [no_post_here|].
  destruct (head snap_rows) as [start_time|] eqn:Hhead; simpl;
    [|no_post_here].
  destruct (last snap_rows) as [end_time|] eqn:Hlast; simpl; [|no_post_here].
  cbn [db trace]. fold (batch_at d (name account) start_time).
  fold (batch_at d (name account) end_time).
  fold (period_changes_of d (name account) start_time end_time).
  destruct (nothing_to_report _) eqn:Hcs; simpl; [no_post_here|].
  intros Hin. split; [lia|]. exists start_time, end_time.
  split; [done|]. split; [done|].
  destruct (sink _); simpl in Hin; the_post Hin.
Qed.

(** X10.  With the current second and the start of the window in the
    years 1000 to 9999, a report posted by [post_period_summary]
    compares the earliest snapshot of the window with the latest one:
    two snapshot times of the account, the first strictly before the
    second, both between the start of the window and the current
    second, with every other snapshot time of the window between
    them. *)
Theorem period_report_spans_the_window
    (sink : list string → post_response) (account : Account)
    (label : string) (days_back now_utc : Z) (d : database)
    (lines : list string) :
  let now_str := strftime_secs now_utc in
  let window_start := now_str - days_back * 86400 in
  let snap_rows :=
    snapshot_times_in d (name account) window_start now_str in
  four_digit_year now_str →
  four_digit_year window_start →
  Post lines
    ∈ trace (run (post_period_summary sink account label days_back now_utc) d).2 →
  ∃ start_time end_time,
    lines = period_report_lines account label start_time end_time
              (period_changes_of d (name account) start_time end_time)
    ∧ start_time ∈ snap_rows ∧ end_time ∈ snap_rows
    ∧ window_start ≤ start_time ∧ start_time < end_time ∧ end_time ≤ now_str
    ∧ ∀ t, t ∈ snap_rows → start_time ≤ t ≤ end_time.
Proof.
  intros now_str window_start snap_rows _ _ Hin.
  apply period_post_endpoints in Hin
    as (Hlen & start_time & end_time & Hhead & Hlast & Hlines).
  fold now_str window_start snap_rows in Hlen, Hhead, Hlast.
  pose proof (snapshot_times_in_sorted d (name account) window_start
                now_str) as Hsorted.
  pose proof (elem_of_snapshot_times_in d (name account) window_start
                now_str) as Hcomplete.
  fold snap_rows in Hsorted, Hcomplete.
  assert (start_time ∈ snap_rows) as Hs.
  { destruct snap_rows; [done|]. injection Hhead as ->. left. }
  assert (end_time ∈ snap_rows) as He.
  { apply last_Some in Hlast as [l' ->]. apply elem_of_app. right. left. }
  exists start_time, end_time. split; [done|]. split; [done|].
  split; [done|].
  split; [by apply Hcomplete in Hs as [[? ?] _]|].
  split; [by apply (sorted_head_before_last snap_rows)|].
  split; [by apply Hcomplete in He as [[? ?] _]|].
  intros t Ht. split.
  - by apply (sorted_head_least snap_rows).
  - by apply (sorted_last_greatest snap_rows).
Qed.

(** X11.  [maybe_post_character_diff] always returns, never changes the
    database and posts at most once.  For the first snapshot of an
    account it only looks for an earlier snapshot and finds none.  A
    report it posts compares the given snapshot with the latest earlier
    one of the account. *)
Theorem latest_diff_effects
    (sink : list string → post_response) (account : Account)
    (snapshot_time : Z) (d : database) :
  let res := run (maybe_post_character_diff sink account snapshot_time) d in
  res.1 = Returned ()
  ∧ db res.2 = d
  ∧ (length (posts (trace res.2)) ≤ 1)%nat
  ∧ inserts (trace res.2) = []
  ∧ ((∀ r, r ∈ character_stats_snapshots d → account_name r = name account →
           snapshot_time ≤ taken_at_utc r) →
     trace res.2 = [SelectPreviousTime (name account) snapshot_time])
  ∧ ∀ lines, Post lines ∈ trace res.2 →
      ∃ prev_time,
        previous_time_of d (name account) snapshot_time = Some prev_time
        ∧ prev_time < snapshot_time
        ∧ lines
          = latest_report_lines account prev_time snapshot_time
              (latest_changes (batch_at d (name account) prev_time)
                 (batch_at d (name account) snapshot_time)).
Proof.
  intros res. subst res. rewrite latest_run. simpl.
  pose proof (previous_time_is_latest_earlier d (name account) snapshot_time)
    as Hprev.
  destruct (previous_time_of d (name account) snapshot_time) as [prev_time|].
  - destruct Hprev as (Hlt & (r & Hr & Ha & Ht) & _).
    split; [done|]. split; [done|].
    split; [|split; [|split]].
    + simpl. destruct (nothing_to_report _); simpl; [lia|].
      rewrite posts_warnings. simpl. lia.
    + simpl. destruct (nothing_to_report _); simpl; [done|].
      by rewrite inserts_warnings.
    + intros Hnone. specialize (Hnone r Hr Ha). lia.
    + intros lines Hin. exists prev_time. split; [done|]. split; [done|].
      simpl in Hin. destruct (nothing_to_report _); simpl in Hin.
      * the_post Hin.
      * destruct (sink _); simpl in Hin; the_post Hin.
  - split; [done|]. split; [done|]. split; [simpl; lia|]. split; [done|].
    split; [done|]. intros lines Hin. the_post Hin.
Qed.

(** ** The order of the entries *)

Lemma string_compare_trans (a b c : string) :
  String.compare a b ≠ Gt → String.compare b c ≠ Gt →
  String.compare a c ≠ Gt.
Proof.
  revert b c. induction a as [|x a IH]; intros b c.
  - by destruct c.
  - destruct b as [|y b]; [done|]. destruct c as [|z c]; [by destruct y|].
    simpl. unfold Ascii.compare.
    destruct (N.compare_spec (N_of_ascii x) (N_of_ascii y)) as [Hxy|Hxy|Hxy];
      destruct (N.compare_spec (N_of_ascii y) (N_of_ascii z)) as [Hyz|Hyz|Hyz];
      destruct (N.compare_spec (N_of_ascii x) (N_of_ascii z)) as [Hxz|Hxz|Hxz];
      try done; try lia.
    apply IH.
Qed.

#[global] Instance str_le_trans : Transitive str_le.
Proof.
  intros a b c. unfold str_le, String.leb. intros Hab Hbc.
  pose proof (string_compare_trans a b c) as Htrans.
  destruct (String.compare a b), (String.compare b c),
    (String.compare a c); try done; exfalso; by apply Htrans.
Qed.

Lemma all_names_strongly_sorted (prev curr : gmap string CharacterRecord) :
  StronglySorted str_le (all_names prev curr).
Proof. apply (StronglySorted_merge_sort str_le); apply _. Qed.

(** The names of what a loop appends, when an iteration appends at most
    one entry, of the name it visits. *)
Lemma names_of_loop (f : string → list entry) (l : list string) :
  (∀ n, f n = [] ∨ ∃ text, f n = [(n, text)]) →
  StronglySorted str_le l → NoDup l →
  StronglySorted str_le (concat (f <$> l)).*1
  ∧ NoDup (concat (f <$> l)).*1
  ∧ ∀ n, n ∈ (concat (f <$> l)).*1 → n ∈ l.
Proof.
  intros Hf Hsorted. induction Hsorted as [|x l Hl IH Hx]; intros Hnd.
  { split; [constructor|]. split; [constructor|]. by intros n ?%elem_of_nil. }
  apply NoDup_cons in Hnd as [Hnot Hnd].
  destruct (IH Hnd) as (IHs & IHn & IHin).
  rewrite fmap_cons, concat_cons, fmap_app.
  destruct (Hf x) as [->|[text ->]]; simpl.
  - split; [done|]. split; [done|]. intros n Hn. right. by apply IHin.
  - split; [|split].
    + constructor; [done|]. apply Forall_forall. intros n Hn.
      rewrite Forall_forall in Hx. by apply Hx, IHin.
    + apply NoDup_cons. split; [|done]. intros Hin. by apply Hnot, IHin.
    + intros n [->|Hn]%elem_of_cons; [left|right; by apply IHin].
Qed.

Lemma compare_fields_at_most_one k who old new :
  entries_of k (compare_fields who old new no_categories) = []
  ∨ ∃ text, entries_of k (compare_fields who old new no_categories)
            = [(who, text)].
Proof.
  unfold compare_fields.
  destruct k; repeat case_decide; simpl; eauto.
Qed.

Lemma period_step_at_most_one existed prev curr k n :
  entries_of k (period_step existed prev curr no_categories n) = []
  ∨ ∃ text, entries_of k (period_step existed prev curr no_categories n)
            = [(n, text)].
Proof.
  unfold period_step.
  destruct (curr !! n) as [new|], (prev !! n) as [old|];
    try apply compare_fields_at_most_one;
    try case_decide; destruct k; simpl; eauto.
Qed.

(** X12.  In each of the seven lists, of the comparison with the
    previous snapshot and of the period summary, the entries come in the
    order of the character names, and no character has two entries; each
    entry is for a character of one of the two mappings. *)
Theorem entries_in_name_order
    (existed : gset string) (prev curr : gmap string CharacterRecord)
    (k : category) :
  in_name_order prev curr (entries_of k (latest_categories prev curr))
  ∧ in_name_order prev curr
      (entries_of k (period_categories existed prev curr)).
Proof.
  assert (∀ existed',
            in_name_order prev curr
              (entries_of k (period_categories existed' prev curr)))
    as Hperiod.
  { intros existed'. unfold in_name_order, period_categories.
    rewrite (foldl_appends (period_step existed' prev curr) (entries_of k)
               (λ acc n, period_step_appends existed' prev curr k acc n)).
    rewrite entries_of_no_categories, app_nil_l.
    destruct (names_of_loop
                (λ n, entries_of k
                        (period_step existed' prev curr no_categories n))
                (all_names prev curr)
                (period_step_at_most_one existed' prev curr k)
                (all_names_strongly_sorted prev curr)
                (all_names_NoDup prev curr)) as (Hs & Hn & Hin).
    split; [done|]. split; [done|].
    intros n Hn'. by apply elem_of_all_names, Hin. }
  split; [|apply Hperiod].
  rewrite <- period_categories_latest. apply Hperiod.
Qed.

(** ** The two loops compared *)

Lemma filter_concat_fmap {A B} (P : B → Prop) `{∀ x, Decision (P x)}
    (f : A → list B) (l : list A) :
  filter P (concat (f <$> l)) = concat ((λ x, filter P (f x)) <$> l).
Proof.
  induction l as [|x l IH]; [done|].
  rewrite !fmap_cons, !concat_cons, filter_app. by rewrite IH.
Qed.

Lemma elem_of_concat_fmap {A B} (f : A → list B) (l : list A) (y : B) :
  y ∈ concat (f <$> l) ↔ ∃ x, x ∈ l ∧ y ∈ f x.
Proof.
  induction l as [|x l IH].
  - split; [by intros ?%elem_of_nil|]. by intros (x & ?%elem_of_nil & _).
  - rewrite fmap_cons, concat_cons, elem_of_app, IH. split.
    + intros [Hy|(x' & Hx' & Hy)]; [exists x|exists x'];
        (split; [|done]); [left|by right].
    + intros (x' & [->|Hx']%elem_of_cons & Hy); [by left|right; eauto].
Qed.

Lemma filter_all {A} (P : A → Prop) `{∀ x, Decision (P x)} (l : list A) :
  Forall P l → filter P l = l.
Proof.
  induction 1 as [|x l Hx _ IH]; [done|].
  rewrite filter_cons_True by done. f_equal. apply IH.
Qed.

Lemma period_step_other existed prev curr k n :
  k ≠ NewCharacters →
  entries_of k (period_step existed prev curr no_categories n)
  = entries_of k (latest_step prev curr no_categories n).
Proof.
  intros Hk. unfold period_step, latest_step.
  destruct (curr !! n) as [new|], (prev !! n) as [old|]; try done.
  case_decide; by destruct k.
Qed.

Lemma compare_fields_no_new who old new :
  new_chars (compare_fields who old new no_categories) = [].
Proof. unfold compare_fields. by repeat case_decide. Qed.

Lemma period_step_new existed prev curr n :
  new_chars (period_step existed prev curr no_categories n)
  = filter (λ e, e.1 ∉ existed)
           (new_chars (latest_step prev curr no_categories n)).
Proof.
  unfold period_step, latest_step.
  destruct (curr !! n) as [new|], (prev !! n) as [old|]; try done.
  - by rewrite compare_fields_no_new.
  - simpl. rewrite filter_cons, filter_nil. simpl. by case_decide.
Qed.

Lemma categories_eq (a b : categories) :
  (∀ k, entries_of k a = entries_of k b) → a = b.
Proof.
  intros Hk. destruct a, b.
  pose proof (Hk NewCharacters). pose proof (Hk LevelUps).
  pose proof (Hk FriendshipGains). pose proof (Hk ConstellationChanges).
  pose proof (Hk WeaponChanges). pose proof (Hk WeaponLevelUps).
  pose proof (Hk RefinementChanges). simpl in *. congruence.
Qed.

Lemma latest_new_chars_are_newcomers prev curr e :
  e ∈ new_chars (latest_categories prev curr) →
  prev !! e.1 = None ∧ is_Some (curr !! e.1).
Proof.
  unfold latest_categories.
  rewrite (foldl_appends (latest_step prev curr) new_chars
             (λ acc n, latest_step_appends prev curr NewCharacters acc n)).
  simpl. rewrite elem_of_concat_fmap. intros (n & _ & He).
  unfold latest_step in He.
  destruct (prev !! n) as [old|] eqn:Hp, (curr !! n) as [new|] eqn:Hc;
    simpl in He.
  - by rewrite compare_fields_no_new in He; apply elem_of_nil in He.
  - by apply elem_of_nil in He.
  - apply list_elem_of_singleton in He as ->. simpl. by rewrite Hp, Hc.
  - by apply elem_of_nil in He.
Qed.

(** X13.  The comparison of the period summary differs from that with
    the previous snapshot only in the new characters: its six other
    lists and its totals line are the same, and its new characters are
    those of the other comparison whose name no earlier snapshot has.
    When no character of the target alone was seen before the window,
    the two comparisons are equal. *)
Theorem period_loop_filters_newcomers
    (existed : gset string) (prev curr : gmap string CharacterRecord) :
  (∀ k, k ≠ NewCharacters →
        entries_of k (period_categories existed prev curr)
        = entries_of k (latest_categories prev curr))
  ∧ new_chars (period_categories existed prev curr)
    = filter (λ e, e.1 ∉ existed) (new_chars (latest_categories prev curr))
  ∧ ((∀ n, n ∈ existed → prev !! n = None → curr !! n = None) →
     period_changes existed prev curr = latest_changes prev curr).
Proof.
  assert (∀ k, k ≠ NewCharacters →
               entries_of k (period_categories existed prev curr)
               = entries_of k (latest_categories prev curr)) as Hother.
  { intros k Hk. unfold period_categories, latest_categories.
    rewrite (foldl_appends (period_step existed prev curr) (entries_of k)
               (λ acc n, period_step_appends existed prev curr k acc n)).
    rewrite (foldl_appends (latest_step prev curr) (entries_of k)
               (λ acc n, latest_step_appends prev curr k acc n)).
    do 2 f_equal. apply list_fmap_ext. intros _ n _.
    by apply period_step_other. }
  assert (new_chars (period_categories existed prev curr)
          = filter (λ e, e.1 ∉ existed)
                   (new_chars (latest_categories prev curr))) as Hnew.
  { unfold period_categories, latest_categories.
    rewrite (foldl_appends (period_step existed prev curr) new_chars
               (λ acc n,
                  period_step_appends existed prev curr NewCharacters acc n)).
    rewrite (foldl_appends (latest_step prev curr) new_chars
               (λ acc n, latest_step_appends prev curr NewCharacters acc n)).
    simpl. rewrite filter_concat_fmap. f_equal.
    apply list_fmap_ext. intros _ n _. apply period_step_new. }
  split; [done|]. split; [done|].
  intros Hseen. unfold period_changes, latest_changes. f_equal.
  apply categories_eq. intros k.
  destruct k; try (by apply Hother).
  simpl. rewrite Hnew. apply filter_all, Forall_forall.
  intros e [Hp [new Hc]]%latest_new_chars_are_newcomers Hin.
  specialize (Hseen _ Hin Hp). congruence.
Qed.

(** ** What a report shows *)

Lemma add_section_prefix title entries lines :
  ∃ body, add_section title entries lines = lines ++ body
          ∧ ∀ e, e ∈ entries → e.2 ∈ body.
Proof.
  unfold add_section. destruct (is_nil entries) eqn:Hnil.
  - apply is_nil_true in Hnil as ->. exists [].
    split; [by rewrite app_nil_r|]. by intros e ?%elem_of_nil.
  - eexists. split; [reflexivity|]. intros e He.
    apply elem_of_app. right. apply elem_of_app. left.
    unfold lines_of. by apply list_elem_of_fmap_2.
Qed.

Lemma add_totals_prefix total lines :
  ∃ body, add_totals total lines = lines ++ body
          ∧ ∀ t, total = Some t → t ≠ "" → last body = Some t.
Proof.
  unfold add_totals. destruct total as [t|]; simpl.
  - case_bool_decide as Ht.
    + exists []. split; [by rewrite app_nil_r|]. intros ? [= <-]. done.
    + eexists. split; [reflexivity|]. by intros ? [= <-].
  - exists []. split; [by rewrite app_nil_r|]. done.
Qed.

Lemma add_sections_body cs lines :
  ∃ body, add_sections cs lines = lines ++ body
          ∧ (∀ k e, e ∈ entries_of k (cats cs) → e.2 ∈ body)
          ∧ ∀ t, total_line cs = Some t → t ≠ "" → last body = Some t.
Proof.
  unfold add_sections.
  destruct (add_section_prefix "New Characters" (new_chars (cats cs)) lines)
    as (b1 & -> & H1).
  destruct (add_section_prefix "Level Ups" (level_ups (cats cs))
              (lines ++ b1)) as (b2 & -> & H2).
  destruct (add_section_prefix "Friendship Gains" (friendship_ups (cats cs))
              ((lines ++ b1) ++ b2)) as (b3 & -> & H3).
  destruct (add_section_prefix "Constellation Changes"
              (constellation_changes (cats cs))
              (((lines ++ b1) ++ b2) ++ b3)) as (b4 & -> & H4).
  destruct (add_section_prefix "Weapon Changes" (weapon_changes (cats cs))
              ((((lines ++ b1) ++ b2) ++ b3) ++ b4)) as (b5 & -> & H5).
  destruct (add_section_prefix "Weapon Level Ups"
              (weapon_level_changes (cats cs))
              (((((lines ++ b1) ++ b2) ++ b3) ++ b4) ++ b5))
    as (b6 & -> & H6).
  destruct (add_section_prefix "Refinement Changes"
              (weapon_refinement_changes (cats cs))
              ((((((lines ++ b1) ++ b2) ++ b3) ++ b4) ++ b5) ++ b6))
    as (b7 & -> & H7).
  destruct (add_totals_prefix (total_line cs)
              (((((((lines ++ b1) ++ b2) ++ b3) ++ b4) ++ b5) ++ b6) ++ b7))
    as (b8 & -> & H8).
  exists (b1 ++ b2 ++ b3 ++ b4 ++ b5 ++ b6 ++ b7 ++ b8).
  split; [by rewrite <- !(assoc_L (++))|]. split.
  - intros k e He. rewrite !elem_of_app.
    destruct k; simpl in He;
      [apply H1 in He|apply H2 in He|apply H3 in He|apply H4 in He
      |apply H5 in He|apply H6 in He|apply H7 in He]; tauto.
  - intros t Ht Hne. specialize (H8 t Ht Hne).
    rewrite !last_app, H8. done.
Qed.

(** X14.  A report of either function starts with its title line, its
    line of times and an empty line; it contains the line of every entry
    of the seven lists; and when there is a totals line, the report ends
    with it. *)
Theorem report_shows_every_entry
    (account : Account) (label : string) (start_time end_time : Z)
    (cs : ChangeSet) :
  let period := period_report_lines account label start_time end_time cs in
  let latest := latest_report_lines account start_time end_time cs in
  take 3 period
  = [ mention_prefix account +:+ "*Genshin Character Summary — "
        +:+ name account +:+ "*";
      "_Period: " +:+ label +:+ " (" +:+ strftime start_time +:+ " → "
        +:+ strftime end_time +:+ ")_";
      "" ]
  ∧ take 3 latest
    = [ mention_prefix account +:+ "*Genshin Character Updates — "
          +:+ name account +:+ "*";
        "_Snapshot: " +:+ strftime start_time +:+ " → "
          +:+ strftime end_time +:+ "_";
        "" ]
  ∧ (∀ k e, e ∈ entries_of k (cats cs) → e.2 ∈ period ∧ e.2 ∈ latest)
  ∧ ∀ t, total_line cs = Some t → t ≠ "" →
         last period = Some t ∧ last latest = Some t.
Proof.
  intros period latest. subst period latest.
  unfold period_report_lines, latest_report_lines.
  match goal with
  | |- context [add_sections cs ?l] =>
      destruct (add_sections_body cs l) as (b1 & -> & Hin1 & Hlast1)
  end.
  match goal with
  | |- context [add_sections cs ?l] =>
      destruct (add_sections_body cs l) as (b2 & -> & Hin2 & Hlast2)
  end.
  split; [done|]. split; [done|]. split.
  - intros k e He. split; apply elem_of_app; right; eauto.
  - intros t Ht Hne. rewrite !last_app, (Hlast1 t), (Hlast2 t) by done. done.
Qed.

(** ** When [_parse_recovery_seconds] raises *)

Section recovery_errors.

Variable str_strip : string → string.
Variable int_of_str : string → option Z.
Variable fromisoformat : string → option datetime.
Variable now_utc : Z.

Lemma seconds_until_raises target_dt e :
  seconds_until now_utc target_dt = Exc e
  ↔ tzinfo target_dt = None ∧ e = TypeError.
Proof.
  unfold seconds_until, datetime_sub, datetime_now. simpl.
  destruct (tzinfo target_dt); simpl; split; try done.
  - by intros [? _].
  - by intros [= <-].
  - by intros [_ ->].
Qed.

(** X15.  [_parse_recovery_seconds] raises in three cases only: on a
    datetime without a zone ([TypeError]), on a NaN ([ValueError]) and
    on an infinite float ([OverflowError]).  On every other value, every
    string included, it returns. *)
Theorem recovery_raises_exactly (value : pyvalue) (e : pyexn) :
  _parse_recovery_seconds str_strip int_of_str fromisoformat now_utc value
  = Exc e
  ↔ (∃ d, value = PyDatetime d ∧ tzinfo d = None ∧ e = TypeError)
    ∨ (value = PyFloat SpecFloat.S754_nan ∧ e = ValueError)
    ∨ (∃ sign, value = PyFloat (SpecFloat.S754_infinity sign)
               ∧ e = FloatOverflowError).
Proof.
  split.
  - destruct value as [|n|x|s|d|]; simpl; try done.
    + destruct x as [sign|sign| |sign m ex]; simpl; try done.
      * intros [= <-]. right. right. by exists sign.
      * intros [= <-]. right. by left.
    + case_decide; [done|]. destruct (int_of_str _); [done|].
      destruct (fromisoformat _); [|done].
      by destruct (seconds_until _ _).
    + destruct (seconds_until now_utc d) as [n|e'] eqn:Hd; [done|].
      intros [= <-]. apply seconds_until_raises in Hd as [Htz ->].
      left. by exists d.
  - intros [(d & -> & Htz & ->)|[[-> ->]|(sign & -> & ->)]]; simpl;
      [|done|done].
    destruct (seconds_until now_utc d) as [n|e'] eqn:Hd.
    + exfalso. unfold seconds_until, datetime_sub in Hd.
      rewrite Htz in Hd. done.
    + by apply seconds_until_raises in Hd as [_ ->].
Qed.

End recovery_errors.

(** ** Storing a snapshot, then comparing it *)

Lemma stored_rows_not_earlier now_utc account characters account' :
  filter (λ r, account_name r = account' ∧ taken_at_utc r < now_utc)
         (stored_rows now_utc account characters) = [].
Proof.
  unfold stored_rows. induction characters as [|c rest IH]; [done|].
  unfold omap in IH |- *. simpl list_omap.
  destruct (c_name c); simpl; [|done].
  rewrite filter_cons_False; [done|]. simpl. lia.
Qed.

(** X16.  After [store_character_stats_snapshots] has stored a snapshot,
    [maybe_post_character_diff] on its second compares it with the
    snapshot that was the account's latest before the store, whose
    mapping the store has not changed.  It posts nothing when the
    account had no earlier snapshot, and nothing when the mapping of the
    stored snapshot equals that of the earlier one. *)
Theorem store_then_diff
    (sink : list string → post_response) (d : database) (account : Account)
    (characters : list character_dump) (now : Z) (d' : database) (t : Z) :
  store_character_stats_snapshots d account characters now = Stored d' t →
  let res := run (maybe_post_character_diff sink account t) d' in
  previous_time_of d' (name account) t = previous_time_of d (name account) t
  ∧ (∀ p, previous_time_of d (name account) t = Some p →
          batch_at d' (name account) p = batch_at d (name account) p)
  ∧ (previous_time_of d (name account) t = None → posts (trace res.2) = [])
  ∧ (∀ p, previous_time_of d (name account) t = Some p →
          batch_at d' (name account) t = batch_at d (name account) p →
          posts (trace res.2) = []).
Proof.
  intros Hstore res.
  destruct (store_then_load d account characters now d' t Hstore)
    as (_ & _ & Hrows & _ & Hframe).
  assert (previous_time_of d' (name account) t
          = previous_time_of d (name account) t) as Hprev.
  { unfold previous_time_of. rewrite Hrows, filter_app.
    by rewrite stored_rows_not_earlier, app_nil_r. }
  assert (∀ p, previous_time_of d (name account) t = Some p →
               batch_at d' (name account) p = batch_at d (name account) p)
    as Hsame.
  { intros p Hp. apply Hframe.
    pose proof (previous_time_is_latest_earlier d (name account) t) as Hlt.
    rewrite Hp in Hlt. destruct Hlt as [Hlt _]. intros [= ->]. lia. }
  split; [done|]. split; [done|].
  subst res. rewrite latest_run. simpl. rewrite Hprev. split.
  - by intros ->.
  - intros p Hp Heq. rewrite Hp. simpl.
    rewrite (Hsame p Hp), Heq.
    destruct (identical_mappings_nothing ∅ (batch_at d (name account) p))
      as [-> _].
    done.
Qed.

(** ** [load_accounts_from_json] *)

Lemma omap_not_longer {A B} (f : A → option B) (l : list A) :
  (length (omap f l) ≤ length l)%nat.
Proof.
  induction l as [|x l IH]; [done|].
  unfold omap in IH |- *. simpl. destruct (f x); simpl; lia.
Qed.

Section accounts_file_properties.

Variable str_strip : string → string.
Variable repr : AccountsFile.pyjson → string.

Lemma missing_nil_iff (item : gmap string AccountsFile.pyjson) :
  AccountsFile.missing item = []
  ↔ ∀ key, key ∈ AccountsFile.required →
           AccountsFile.truthy (AccountsFile.get item key) = true.
Proof.
  unfold AccountsFile.missing. split.
  - intros Hnil key Hkey.
    destruct (AccountsFile.truthy (AccountsFile.get item key)) eqn:Ht;
      [done|].
    assert (key ∈ filter
              (λ key, AccountsFile.truthy (AccountsFile.get item key) = false)
              AccountsFile.required) as Hin
      by (by apply list_elem_of_filter).
    rewrite Hnil in Hin. by apply elem_of_nil in Hin.
  - intros Hall.
    destruct (filter _ AccountsFile.required) as [|key l] eqn:Hf; [done|].
    assert (key ∈ filter
              (λ key, AccountsFile.truthy (AccountsFile.get item key) = false)
              AccountsFile.required) as Hin by (rewrite Hf; left).
    apply list_elem_of_filter in Hin as [Hfalse Hkey].
    rewrite (Hall key Hkey) in Hfalse. done.
Qed.

Lemma account_of_item_Some (item : AccountsFile.pyjson)
    (a : AccountsFile.Account) :
  AccountsFile.account_of_item str_strip repr item = Some a
  ↔ ∃ m, item = AccountsFile.JDict m
         ∧ AccountsFile.missing m = []
         ∧ a = {| AccountsFile.name :=
                    str_strip (AccountsFile.py_str repr
                                 (AccountsFile.get m "name"));
                  AccountsFile.uid :=
                    str_strip (AccountsFile.py_str repr
                                 (AccountsFile.get m "uid"));
                  AccountsFile.ltuid_v2 :=
                    str_strip (AccountsFile.py_str repr
                                 (AccountsFile.get m "ltuid_v2"));
                  AccountsFile.ltoken_v2 :=
                    str_strip (AccountsFile.py_str repr
                                 (AccountsFile.get m "ltoken_v2"));
                  AccountsFile.db_name :=
                    str_strip (AccountsFile.py_str repr
                                 (AccountsFile.get m "db_name"));
                  AccountsFile.slack_mention :=
                    match m !! "slack_mention" with
                    | None | Some AccountsFile.JNull => None
                    | Some v => Some (str_strip (AccountsFile.py_str repr v))
                    end;
                  AccountsFile.tz :=
                    match m !! "tz" with
                    | None => str_strip "UTC"
                    | Some v =>
                        if AccountsFile.truthy v
                        then str_strip (AccountsFile.py_str repr v)
                        else "UTC"
                    end |}.
Proof.
  destruct item as [| | | | | |m]; simpl;
    try (split; [done|by intros (? & ? & ?)]).
  destruct (is_nil (AccountsFile.missing m)) eqn:Hnil.
  - apply is_nil_true in Hnil. split.
    + intros [= <-]. exists m. split; [done|]. split; [done|].
      unfold AccountsFile.get.
      by destruct (m !! "slack_mention") as [[]|], (m !! "tz").
    + intros (m' & [= <-] & _ & ->). f_equal. unfold AccountsFile.get.
      by destruct (m !! "slack_mention") as [[]|], (m !! "tz").
  - split; [done|]. intros (m' & [= <-] & Hm & _).
    by rewrite Hm in Hnil.
Qed.

(** X17.  An entry of the accounts file gives an account exactly when it
    is an object whose [name], [uid], [ltuid_v2], [ltoken_v2] and
    [db_name] are all present and true in Python's sense (not null,
    false, 0, or empty).  The account then holds the stripped text of
    each of the five, whatever its type; its mention is absent when
    [slack_mention] is missing or null and the stripped text of its
    value otherwise; its time zone is the stripped text "UTC" when [tz]
    is missing, the stripped text of [tz] when it is true in Python's
    sense, and "UTC" when it is null or otherwise false.  The text of a
    string is the string, the text of an integer its decimal digits. *)
Theorem account_entry_valid_iff (item : AccountsFile.pyjson) :
  (is_Some (AccountsFile.account_of_item str_strip repr item)
   ↔ ∃ m, item = AccountsFile.JDict m
          ∧ ∀ key, key ∈ AccountsFile.required →
                   AccountsFile.truthy (AccountsFile.get m key) = true)
  ∧ (∀ m a,
       item = AccountsFile.JDict m →
       AccountsFile.account_of_item str_strip repr item = Some a →
       AccountsFile.name a
       = str_strip (AccountsFile.py_str repr (AccountsFile.get m "name"))
       ∧ AccountsFile.uid a
         = str_strip (AccountsFile.py_str repr (AccountsFile.get m "uid"))
       ∧ AccountsFile.ltuid_v2 a
         = str_strip (AccountsFile.py_str repr
                        (AccountsFile.get m "ltuid_v2"))
       ∧ AccountsFile.ltoken_v2 a
         = str_strip (AccountsFile.py_str repr
                        (AccountsFile.get m "ltoken_v2"))
       ∧ AccountsFile.db_name a
         = str_strip (AccountsFile.py_str repr
                        (AccountsFile.get m "db_name"))
       ∧ AccountsFile.slack_mention a
         = match m !! "slack_mention" with
           | None | Some AccountsFile.JNull => None
           | Some v => Some (str_strip (AccountsFile.py_str repr v))
           end
       ∧ AccountsFile.tz a
         = match m !! "tz" with
           | None => str_strip "UTC"
           | Some v =>
               if AccountsFile.truthy v
               then str_strip (AccountsFile.py_str repr v)
               else "UTC"
           end)
  ∧ (∀ text, AccountsFile.py_str repr (AccountsFile.JStr text) = text)
  ∧ (∀ n, AccountsFile.py_str repr (AccountsFile.JInt n) = pretty n).
Proof.
  split; [|split; [|done]].
  - split.
    + intros [a (m & -> & Hm & _)%account_of_item_Some].
      exists m. split; [done|]. by apply missing_nil_iff.
    + intros (m & -> & Hall). apply missing_nil_iff in Hall.
      eexists. apply account_of_item_Some. by exists m.
  - intros m a -> (m' & [= <-] & _ & ->)%account_of_item_Some. done.
Qed.

Lemma valid_entry_missing (m : gmap string AccountsFile.pyjson) :
  forallb (λ key, AccountsFile.truthy (AccountsFile.get m key))
    AccountsFile.required = true
  ↔ AccountsFile.missing m = [].
Proof.
  rewrite missing_nil_iff, forallb_forall. split.
  - intros Hall key Hkey. apply Hall. by apply list_elem_of_In.
  - intros Hall key Hkey. apply Hall. by apply list_elem_of_In.
Qed.

(** X18.  [load_accounts_from_json] never returns an empty list.  A
    single object counting as a list of one, it returns one account for
    each valid entry (an object whose five required fields are all true
    in Python's sense), in the order of the entries, with the fields
    that entry gives, and skips every other entry; it raises
    [ValueError] when the file holds neither an object nor a list, or no
    valid entry. *)
Theorem load_accounts_outcome (raw : AccountsFile.pyjson) :
  let items :=
    match raw with
    | AccountsFile.JDict _ => [raw]
    | AccountsFile.JList items => items
    | _ => []
    end in
  let valid (item : AccountsFile.pyjson) : bool :=
    match item with
    | AccountsFile.JDict m =>
        forallb (λ key, AccountsFile.truthy (AccountsFile.get m key))
          AccountsFile.required
    | _ => false
    end in
  match AccountsFile.load_accounts_from_json str_strip repr raw with
  | Ret accounts =>
      accounts ≠ []
      ∧ Forall2
          (λ item a,
             ∃ m, item = AccountsFile.JDict m
                  ∧ a = {| AccountsFile.name :=
                             str_strip (AccountsFile.py_str repr
                                          (AccountsFile.get m "name"));
                           AccountsFile.uid :=
                             str_strip (AccountsFile.py_str repr
                                          (AccountsFile.get m "uid"));
                           AccountsFile.ltuid_v2 :=
                             str_strip (AccountsFile.py_str repr
                                          (AccountsFile.get m "ltuid_v2"));
                           AccountsFile.ltoken_v2 :=
                             str_strip (AccountsFile.py_str repr
                                          (AccountsFile.get m "ltoken_v2"));
                           AccountsFile.db_name :=
                             str_strip (AccountsFile.py_str repr
                                          (AccountsFile.get m "db_name"));
                           AccountsFile.slack_mention :=
                             match m !! "slack_mention" with
                             | None | Some AccountsFile.JNull => None
                             | Some v =>
                                 Some (str_strip (AccountsFile.py_str repr v))
                             end;
                           AccountsFile.tz :=
                             match m !! "tz" with
                             | None => str_strip "UTC"
                             | Some v =>
                                 if AccountsFile.truthy v
                                 then str_strip (AccountsFile.py_str repr v)
                                 else "UTC"
                             end |})
          (filter (λ item, valid item = true) items) accounts
  | Exc e =>
      e = ValueError ∧ ∀ item, item ∈ items → valid item = false
  end.
Proof.
  intros items valid.
  assert (∀ item, valid item = true
                  ↔ is_Some (AccountsFile.account_of_item str_strip repr item))
    as Hvalid.
  { intros item. split.
    - destruct item as [| | | | | |m]; try done.
      intros Hm. unfold valid in Hm. apply valid_entry_missing in Hm.
      eexists. apply (proj2 (account_of_item_Some _ _)). by exists m.
    - intros [a (m & -> & Hm & _)%account_of_item_Some].
      simpl. by apply valid_entry_missing. }
  assert (∀ l : list AccountsFile.pyjson,
            Forall2
              (λ item a, AccountsFile.account_of_item str_strip repr item
                         = Some a)
              (filter (λ item, valid item = true) l)
              (omap (AccountsFile.account_of_item str_strip repr) l))
    as Hloop.
  { induction l as [|item l IH]; [constructor|].
    unfold omap in IH |- *. simpl list_omap.
    destruct (AccountsFile.account_of_item str_strip repr item) as [a|]
      eqn:Ha.
    - rewrite filter_cons_True by (apply Hvalid; by rewrite Ha).
      by constructor.
    - rewrite filter_cons_False; [done|].
      intros [a Ha']%Hvalid. congruence. }
  assert (∀ l : list AccountsFile.pyjson,
            match (if is_nil (omap (AccountsFile.account_of_item str_strip
                                      repr) l)
                   then Exc ValueError
                   else Ret (omap (AccountsFile.account_of_item str_strip
                                     repr) l)) with
            | Ret accounts =>
                accounts ≠ []
                ∧ Forall2
                    (λ item a, AccountsFile.account_of_item str_strip repr
                                 item = Some a)
                    (filter (λ item, valid item = true) l) accounts
            | Exc e => e = ValueError ∧ ∀ item, item ∈ l → valid item = false
            end) as Hlist.
  { intros l.
    destruct (is_nil (omap (AccountsFile.account_of_item str_strip repr) l))
      eqn:Hnil.
    - split; [done|]. intros item Hitem. apply is_nil_true in Hnil.
      destruct (valid item) eqn:Hv; [|done].
      apply Hvalid in Hv as [a Ha].
      assert (a ∈ omap (AccountsFile.account_of_item str_strip repr) l)
        as Hin by (apply list_elem_of_omap; eauto).
      rewrite Hnil in Hin. by apply elem_of_nil in Hin.
    - split; [by intros Heq; rewrite Heq in Hnil|]. apply Hloop. }
  match goal with
  | |- context [@Forall2 _ _ ?R] => set (gives := R)
  end.
  unfold AccountsFile.load_accounts_from_json.
  assert (∀ l : list AccountsFile.pyjson,
            match (if is_nil (omap (AccountsFile.account_of_item str_strip
                                      repr) l)
                   then Exc ValueError
                   else Ret (omap (AccountsFile.account_of_item str_strip
                                     repr) l)) with
            | Ret accounts =>
                accounts ≠ []
                ∧ Forall2 gives (filter (λ item, valid item = true) l)
                    accounts
            | Exc e => e = ValueError ∧ ∀ item, item ∈ l → valid item = false
            end) as Hgoal; [|destruct raw; subst items;
                              first [apply Hgoal
                                    |split; [done|];
                                     by intros item ?%elem_of_nil]].
  intros l. specialize (Hlist l).
  destruct (is_nil _); [done|]. destruct Hlist as [Hne Hall].
  split; [done|].
  eapply Forall2_impl; [exact Hall|].
  intros item a (m & -> & _ & ->)%account_of_item_Some. by exists m.
Qed.

End accounts_file_properties.

(** ** Further evaluations on the sample account *)

Lemma store_then_load_witness :
  store_character_stats_snapshots sample_db sample_account sample_characters
    sample_now = Stored sample_db_stored 1700007000
  ∧ 1700007000 = strftime_secs sample_now
  ∧ character_summary_runs sample_db_stored = character_summary_runs sample_db
  ∧ character_stats_snapshots sample_db_stored
    = character_stats_snapshots sample_db
      ++ stored_rows 1700007000 (name sample_account) sample_characters
  ∧ (∀ who,
       batch_at sample_db_stored (name sample_account) 1700007000 !! who
       = match last_named who sample_characters with
         | Some c => Some (record_of_character c)
         | None => batch_at sample_db (name sample_account) 1700007000 !! who
         end)
  ∧ (∀ account' taken_at,
       (account', taken_at) ≠ (name sample_account, 1700007000) →
       batch_at sample_db_stored account' taken_at
       = batch_at sample_db account' taken_at).
Proof.
  assert (store_character_stats_snapshots sample_db sample_account
            sample_characters sample_now
          = Stored sample_db_stored 1700007000) as Hstore
    by (vm_compute; reflexivity).
  split; [exact Hstore|].
  exact (store_then_load sample_db sample_account sample_characters
           sample_now sample_db_stored 1700007000 Hstore).
Defined.

Lemma store_then_diff_witness :
  let res := run (maybe_post_character_diff (λ _, RespOk) sample_account
                    1700007000) sample_db_stored in
  store_character_stats_snapshots sample_db sample_account sample_characters
    sample_now = Stored sample_db_stored 1700007000
  ∧ previous_time_of sample_db_stored (name sample_account) 1700007000
    = previous_time_of sample_db (name sample_account) 1700007000
  ∧ (∀ p, previous_time_of sample_db (name sample_account) 1700007000
          = Some p →
          batch_at sample_db_stored (name sample_account) p
          = batch_at sample_db (name sample_account) p)
  ∧ (previous_time_of sample_db (name sample_account) 1700007000 = None →
     posts (trace res.2) = [])
  ∧ (∀ p, previous_time_of sample_db (name sample_account) 1700007000
          = Some p →
          batch_at sample_db_stored (name sample_account) 1700007000
          = batch_at sample_db (name sample_account) p →
          posts (trace res.2) = []).
Proof.
  intros res.
  assert (store_character_stats_snapshots sample_db sample_account
            sample_characters sample_now
          = Stored sample_db_stored 1700007000) as Hstore
    by (vm_compute; reflexivity).
  split; [exact Hstore|].
  exact (store_then_diff (λ _, RespOk) sample_db sample_account
           sample_characters sample_now sample_db_stored 1700007000 Hstore).
Defined.

Lemma last_run_never_moves_backward_witness :
  1 ≤ 7
  ∧ last_run_of sample_db_run_5_days_ago (name sample_account) "Last 7 days"
    = Some (Stamp 1699575000)
  ∧ ∃ last_run',
      last_run_of
        (db (run (post_period_summary (λ _, RespOk) sample_account
                    "Last 7 days" 7 (sample_now + 2 * 86400 * 1000000))
               sample_db_run_5_days_ago).2)
        (name sample_account) "Last 7 days"
      = Some (Stamp last_run')
      ∧ 1699575000 ≤ last_run'.
Proof.
  assert (1 ≤ 7) as Hdays by lia.
  assert (last_run_of sample_db_run_5_days_ago (name sample_account)
            "Last 7 days" = Some (Stamp 1699575000)) as Hrow
    by (vm_compute; reflexivity).
  split; [exact Hdays|]. split; [exact Hrow|].
  exact (last_run_never_moves_backward (λ _, RespOk) sample_account
           "Last 7 days" 7 (sample_now + 2 * 86400 * 1000000)
           sample_db_run_5_days_ago 1699575000 Hdays Hrow).
Defined.

Lemma due_evaluation_always_advances_witness :
  let now_str := strftime_secs sample_now in
  let res := run (post_period_summary (λ _, RespNotOk 500 "error")
                    sample_account "Last 7 days" 7 sample_now) sample_db in
  four_digit_year now_str
  ∧ four_digit_year (now_str - 7 * 86400)
  ∧ due (last_run_of sample_db (name sample_account) "Last 7 days")
      sample_now 7
  ∧ res.1 = Returned ()
  ∧ db res.2
    = with_run sample_db (run_row_of (name sample_account) "Last 7 days"
                            now_str)
  ∧ last_run_of (db res.2) (name sample_account) "Last 7 days"
    = Some (Stamp now_str)
  ∧ ∀ sink' later,
      -198840 ≤ 7 ≤ 198842 →
      later - now_str * 1000000 < (7 - 1) * 86400 * 1000000 →
      run (post_period_summary sink' sample_account "Last 7 days" 7 later)
        (db res.2)
      = (Returned (),
         {| db := db res.2;
            trace := [CreateRunsTableIfNotExists;
                      SelectLastRun (name sample_account) "Last 7 days"] |}).
Proof.
  intros now_str res.
  assert (four_digit_year now_str) as Hnow by (vm_compute; done).
  assert (four_digit_year (now_str - 7 * 86400)) as Hstart
    by (vm_compute; done).
  assert (due (last_run_of sample_db (name sample_account) "Last 7 days")
            sample_now 7) as Hdue
    by (vm_compute; exact I).
  split; [exact Hnow|]. split; [exact Hstart|]. split; [exact Hdue|].
  exact (due_evaluation_always_advances (λ _, RespNotOk 500 "error")
           sample_account "Last 7 days" 7 sample_now sample_db Hnow Hstart
           Hdue).
Defined.

Lemma period_report_spans_the_window_witness :
  let now_str := strftime_secs sample_now in
  let window_start := now_str - 7 * 86400 in
  let snap_rows :=
    snapshot_times_in sample_db (name sample_account) window_start now_str in
  let lines :=
    period_report_lines sample_account "Last 7 days" 1700000000 1700003600
      (period_changes_of sample_db (name sample_account) 1700000000
         1700003600) in
  four_digit_year now_str
  ∧ four_digit_year window_start
  ∧ Post lines
      ∈ trace (run (post_period_summary (λ _, RespOk) sample_account
                      "Last 7 days" 7 sample_now) sample_db).2
  ∧ ∃ start_time end_time,
      lines = period_report_lines sample_account "Last 7 days" start_time
                end_time
                (period_changes_of sample_db (name sample_account)
                   start_time end_time)
      ∧ start_time ∈ snap_rows ∧ end_time ∈ snap_rows
      ∧ window_start ≤ start_time ∧ start_time < end_time
      ∧ end_time ≤ now_str
      ∧ ∀ t, t ∈ snap_rows → start_time ≤ t ≤ end_time.
Proof.
  intros now_str window_start snap_rows lines.
  assert (Post lines
            ∈ trace (run (post_period_summary (λ _, RespOk) sample_account
                            "Last 7 days" 7 sample_now) sample_db).2) as Hin.
  { vm_compute. do 6 apply list_elem_of_further. apply list_elem_of_here. }
  assert (four_digit_year now_str) as Hnow by (vm_compute; done).
  assert (four_digit_year window_start) as Hstart by (vm_compute; done).
  split; [exact Hnow|]. split; [exact Hstart|]. split; [exact Hin|].
  exact (period_report_spans_the_window (λ _, RespOk) sample_account
           "Last 7 days" 7 sample_now sample_db lines Hnow Hstart Hin).
Defined.

Lemma snapshot_times_ascending_and_complete_witness :
  let times := snapshot_times_in sample_db "A" 1699402200 1700007000 in
  four_digit_year 1699402200
  ∧ four_digit_year 1700007000
  ∧ StronglySorted Z.lt times
  ∧ ∀ t, t ∈ times
         ↔ 1699402200 ≤ t ≤ 1700007000
           ∧ ∃ r, r ∈ character_stats_snapshots sample_db
                  ∧ account_name r = "A" ∧ taken_at_utc r = t.
Proof.
  intros times.
  assert (four_digit_year 1699402200) as Hstart by (vm_compute; done).
  assert (four_digit_year 1700007000) as Hend by (vm_compute; done).
  split; [exact Hstart|]. split; [exact Hend|].
  exact (snapshot_times_ascending_and_complete sample_db "A" 1699402200
           1700007000 Hstart Hend).
Defined.

(** ** New characters of a period *)

(** X19.  A character listed as new by the period summary is in the
    latest snapshot of the window, is not in the earliest one, and has
    no row of the account at any time before the earliest one. *)
Theorem period_newcomer_never_seen_before
    (d : database) (account : string) (start_time end_time : Z)
    (e : entry) :
  e ∈ new_chars (cats (period_changes_of d account start_time end_time)) →
  batch_at d account start_time !! e.1 = None
  ∧ is_Some (batch_at d account end_time !! e.1)
  ∧ ∀ r, r ∈ character_stats_snapshots d → account_name r = account →
         taken_at_utc r < start_time → character_name r ≠ e.1.
Proof.
  unfold period_changes_of, period_changes. simpl.
  destruct (period_loop_filters_newcomers
              (existed_before_of d account start_time)
              (batch_at d account start_time)
              (batch_at d account end_time)) as (_ & -> & _).
  intros [Hnot Hin]%list_elem_of_filter.
  apply latest_new_chars_are_newcomers in Hin as [Hp Hc].
  split; [done|]. split; [done|].
  intros r Hr Ha Hlt Hname. apply Hnot.
  unfold existed_before_of. apply elem_of_list_to_set, list_elem_of_fmap.
  exists r. split; [done|]. by apply list_elem_of_filter.
Qed.

Lemma period_newcomer_never_seen_before_witness :
  let e := ("Amber", "• Amber: Lv20 C0 F2 — No weapon (Lv0 R0)") in
  e ∈ new_chars (cats (period_changes_of sample_db_recent "A" 1700000000
                         1700003600))
  ∧ batch_at sample_db_recent "A" 1700000000 !! e.1 = None
  ∧ is_Some (batch_at sample_db_recent "A" 1700003600 !! e.1)
  ∧ ∀ r, r ∈ character_stats_snapshots sample_db_recent →
         account_name r = "A" → taken_at_utc r < 1700000000 →
         character_name r ≠ e.1.
Proof.
  intros e.
  assert (e ∈ new_chars (cats (period_changes_of sample_db_recent "A"
                                 1700000000 1700003600))) as Hin.
  { vm_compute. apply list_elem_of_here. }
  split; [exact Hin|].
  exact (period_newcomer_never_seen_before sample_db_recent "A" 1700000000
           1700003600 e Hin).
Defined.

(** Storing the sample characters again and comparing: nothing is
    posted, and the summary of the last seven days is then due and
    posted once. *)
Example store_again_posts_nothing :
  posts (trace (run (maybe_post_character_diff (λ _, RespOk) sample_account
                       1700007000) sample_db_stored).2) = []
  ∧ length (posts (trace (run (post_period_summary (λ _, RespOk)
                                 sample_account "Last 7 days" 7 sample_now)
                            sample_db_stored).2)) = 1%nat.
Proof. vm_compute. split; reflexivity. Qed.

Example format_duration_short_examples :
  _format_duration_short None = "?"
  ∧ _format_duration_short (Some 0) = "ready"
  ∧ _format_duration_short (Some 59) = "less than 1m"
  ∧ _format_duration_short (Some 60) = "1m"
  ∧ _format_duration_short (Some 7200) = "2h"
  ∧ _format_duration_short (Some 11520) = "3h 12m".
Proof. vm_compute. repeat split. Qed.
